(** * fetch-api: a shallow embedding of [src/lib/api.js]

    The class [Api] wraps the global [fetch]: it resolves URLs against a
    root, merges option objects, picks a body decoder from the
    Content-Type header and turns the response into a promise of
    [{response, data}] or a rejection carrying an [ApiError].

    JavaScript objects have identity and are mutable, so the embedding
    keeps them in a heap; every method of the class is a computation in a
    state-and-exception monad over that heap, written statement by
    statement after the source.

    What lies outside the class is taken as it is used:
    - [Url.resolve], [queryString.stringify], the encoding of objects by
      [JSON.stringify] and the global [fetch] are parameters;
    - a response is the record of what the transport promises (status,
      ok, statusText, headers.get) together with its other members;
    - a promise is the way it eventually settles, so [then] runs its
      callback at once on the fulfilment value;
    - a function stored in an object is a test double with a fixed
      result, as in [src/test/api.js];
    - numbers are integers, printed by their decimal digits, which is
      what the code prints for the integers a number holds exactly (those
      below 2^53 in magnitude); a statement that prints a number carries
      that bound;
    - symbols are left out, and the calls to [log] have no effect on
      any result. *)

From Stdlib Require Import ZArith String Ascii.
From stdpp Require Import base option list gmap strings pretty.

Local Open Scope string_scope.
Local Open Scope list_scope.

(** ** Values *)

Abbreviation loc := nat.

(** Primitive values. Numbers are the integers (the only numbers the
    source handles are HTTP status codes); symbols are not modelled. *)
Inductive prim : Type :=
| PUndefined
| PNull
| PBool (b : bool)
| PNum (n : Z)
| PStr (s : string).

Inductive value : Type :=
| VPrim (p : prim)
| VRef (l : loc).

Abbreviation VUndefined := (VPrim PUndefined).
Abbreviation VNull := (VPrim PNull).
Abbreviation VBool b := (VPrim (PBool b)).
Abbreviation VNum n := (VPrim (PNum n)).
Abbreviation VStr s := (VPrim (PStr s)).

(** The result of evaluating an expression or calling a function. *)
Inductive completion (A : Type) : Type :=
| Normal (a : A)
| Throw (e : value).
Arguments Normal {A} a.
Arguments Throw {A} e.

(** A promise is represented by the way it eventually settles. *)
Inductive settlement : Type :=
| Fulfilled (v : value)
| Rejected (e : value)
| Unsettled.

(** What the transport hands back: [status], [ok], [statusText], the
    lookup [headers.get(name)], and whatever else is reachable as
    [response[name]] (the body decoders). *)
Record Response : Type := mkResponse {
  ok : bool;
  status : Z;
  statusText : string;
  headers_get : string -> value;
  members : gmap string value
}.

(** Heap objects. An error keeps its (non-enumerable) message apart from
    the properties assigned to it later. A function object is a test
    double in the style of the repository's tests: it ignores its
    receiver and arguments and completes with a fixed result. *)
Inductive object : Type :=
| OPlain (props : gmap string value)
| OError (cls : string) (message : string) (props : gmap string value)
| OFunction (result : completion value)
| OPromise (s : settlement)
| OResponse (r : Response).

Abbreviation heap := (list object).

(** ** The monad: heap passing, with thrown values *)

Definition M (A : Type) : Type := heap -> completion A * heap.

Definition ret {A} (a : A) : M A := fun h => (Normal a, h).

Definition throw {A} (e : value) : M A := fun h => (Throw e, h).

Definition bind {A B} (m : M A) (k : A -> M B) : M B :=
  fun h =>
    match m h with
    | (Normal a, h') => k a h'
    | (Throw e, h') => (Throw e, h')
    end.

Declare Scope js_scope.
Delimit Scope js_scope with js.
Notation "x <- m ;; k" := (bind m (fun x => k))
  (at level 100, m at next level, right associativity) : js_scope.
Notation "m ;;; k" := (bind m (fun _ => k))
  (at level 100, right associativity) : js_scope.
Local Open Scope js_scope.

(** [new]: objects are allocated at the end of the heap and never freed. *)
Definition alloc (o : object) : M value :=
  fun h => (Normal (VRef (length h)), h ++ [o]).

Definition get_heap : M heap := fun h => (Normal h, h).

(** [throw new cls(message)] *)
Definition throw_new {A} (cls message : string) : M A :=
  e <- alloc (OError cls message ∅) ;; throw e.

(** ** Strings and regular expressions *)

(** [contains pat s]: the literal regular expression [/pat/] matches
    somewhere in [s] (the source's patterns have no metacharacters). *)
Fixpoint contains (pat s : string) : bool :=
  String.prefix pat s ||
  match s with
  | EmptyString => false
  | String _ s' => contains pat s'
  end.

(** [s] starts with [pat]: what [/^pat/] would match. *)
Definition starts_with (pat s : string) : bool := String.prefix pat s.

(** [pat] occurs in [s] as a substring. *)
Definition occurs (pat s : string) : Prop := exists a b, s = a +:+ pat +:+ b.

(** ** Language primitives *)

(** ToBoolean, as used by [!x], [x || y] and [if (x)]. *)
Definition truthy (v : value) : bool :=
  match v with
  | VUndefined | VNull => false
  | VBool b => b
  | VNum n => negb (n =? 0)%Z
  | VStr s => negb (String.eqb s "")
  | VRef _ => true
  end.

(** The integers a number holds exactly ([Number.isSafeInteger]): on
    these, ToString and [JSON.stringify] give the decimal digits. *)
Definition safe_integer (n : Z) : bool := ((- 2 ^ 53 <? n) && (n <? 2 ^ 53))%Z.

(** The primitives whose string form the model has exactly. *)
Definition printable (p : prim) : bool :=
  match p with
  | PNum n => safe_integer n
  | _ => true
  end.

(** ToString of a primitive, as used by template literals. A number is
    printed by its decimal digits: that is the code's output on a safe
    integer, and only there (from 2^53 on the code prints the shortest
    digits that read back as the number, and from 10^21 on an exponent). *)
Definition to_string (p : prim) : string :=
  match p with
  | PUndefined => "undefined"
  | PNull => "null"
  | PBool true => "true"
  | PBool false => "false"
  | PNum n => pretty n
  | PStr s => s
  end.

(** [typeof v === 'string'] *)
Definition is_string (v : value) : bool :=
  match v with
  | VStr _ => true
  | _ => false
  end.

(** [typeof v === 'function'] *)
Definition is_function (h : heap) (v : value) : bool :=
  match v with
  | VRef l =>
      match h !! l with
      | Some (OFunction _) => true
      | _ => false
      end
  | VPrim _ => false
  end.

(** The indexed characters of a string, which is what spreading a string
    into an object literal copies. *)
Fixpoint string_props (i : nat) (s : string) : gmap string value :=
  match s with
  | EmptyString => ∅
  | String c s' => <[pretty i := VStr (String c EmptyString)]> (string_props (S i) s')
  end.

(** The own enumerable properties of a value: what [{...v}] copies.
    Functions, promises and responses are host objects whose interface
    lives on their prototypes. *)
Definition own_props (h : heap) (v : value) : gmap string value :=
  match v with
  | VStr s => string_props 0 s
  | VPrim _ => ∅
  | VRef l =>
      match h !! l with
      | Some (OPlain props) => props
      | Some (OError _ _ props) => props
      | _ => ∅
      end
  end.

(** [...(v || {})] inside an object literal; the temporary [{}] is not
    kept. *)
Definition spread_or_empty (h : heap) (v : value) : gmap string value :=
  if truthy v then own_props h v else ∅.

(** The value stored under a key of an object literal, [undefined] when
    the key is absent. *)
Definition field (props : gmap string value) (name : string) : value :=
  default VUndefined (props !! name).

(** [null] and [undefined] have no properties at all. *)
Definition nullish (p : prim) : bool :=
  match p with
  | PUndefined | PNull => true
  | _ => false
  end.

(** The TypeError of reading [name] from [null] or [undefined]. *)
Definition throw_no_property {A} (name : string) (p : prim) : M A :=
  throw_new "TypeError"
            ("Cannot read property '" +:+ name +:+ "' of " +:+ to_string p).

(** [v.name] for the property names of the source other than [then];
    none of them is defined on the prototype of a primitive, a function
    or a promise. *)
Definition get_prop (v : value) (name : string) : M value :=
  match v with
  | VPrim p => if nullish p then throw_no_property name p else ret VUndefined
  | VRef l =>
      fun h =>
        match h !! l with
        | Some (OPlain props) => (Normal (field props name), h)
        | Some (OError _ msg props) =>
            (Normal (if String.eqb name "message" then VStr msg
                     else field props name), h)
        | Some (OResponse r) =>
            (Normal (if String.eqb name "ok" then VBool (ok r)
                     else if String.eqb name "status" then VNum (status r)
                     else if String.eqb name "statusText" then VStr (statusText r)
                     else field (members r) name), h)
        | _ => (Normal VUndefined, h)
        end
  end.

(** [target.name = v] on an object that records its properties. *)
Definition set_prop (target : value) (name : string) (v : value) : M unit :=
  fun h =>
    match target with
    | VRef l =>
        match h !! l with
        | Some (OPlain props) => (Normal (), <[l := OPlain (<[name := v]> props)]> h)
        | Some (OError cls msg props) =>
            (Normal (), <[l := OError cls msg (<[name := v]> props)]> h)
        | _ => (Normal (), h)
        end
    | VPrim _ => (Normal (), h)
    end.

(** [f()] *)
Definition call (f : value) : M value :=
  fun h =>
    match f with
    | VRef l =>
        match h !! l with
        | Some (OFunction result) => (result, h)
        | _ => throw_new "TypeError" "not a function" h
        end
    | VPrim _ => throw_new "TypeError" "not a function" h
    end.

(** [f.bind(thisArg)]: a new function object; a test double behaves the
    same whatever its receiver. *)
Definition bind_this (f thisArg : value) : M value :=
  fun h =>
    match f with
    | VRef l =>
        match h !! l with
        | Some (OFunction result) => alloc (OFunction result) h
        | _ => throw_new "TypeError" "Bind must be called on a function" h
        end
    | VPrim _ => throw_new "TypeError" "Bind must be called on a function" h
    end.

(** ** Promises *)

(** The [then] property of an object that is not a native promise. *)
Definition then_prop (o : object) : value :=
  match o with
  | OPlain props | OError _ _ props => field props "then"
  | OResponse r => field (members r) "then"
  | _ => VUndefined
  end.

(** [typeof data.then === 'function']: reading a property of [null] or
    [undefined] is a TypeError; a native promise inherits [then]. *)
Definition has_then (data : value) : M bool :=
  match data with
  | VPrim p => if nullish p then throw_no_property "then" p else ret false
  | VRef l =>
      fun h =>
        match h !! l with
        | Some (OPromise _) => (Normal true, h)
        | Some o => (Normal (is_function h (then_prop o)), h)
        | None => (Normal false, h)
        end
  end.

(** How a promise resolved with [v] settles: a native promise is adopted;
    a thenable test double is asked through its [then], which never calls
    back; anything else fulfils. *)
Definition resolution (h : heap) (v : value) : settlement :=
  match v with
  | VPrim _ => Fulfilled v
  | VRef l =>
      match h !! l with
      | Some (OPromise s) => s
      | Some o =>
          match then_prop o with
          | VRef t =>
              match h !! t with
              | Some (OFunction (Normal _)) => Unsettled
              | Some (OFunction (Throw e)) => Rejected e
              | _ => Fulfilled v
              end
          | VPrim _ => Fulfilled v
          end
      | None => Fulfilled v
      end
  end.

(** [Promise.resolve(v)] *)
Definition Promise_resolve (v : value) : M value :=
  fun h =>
    match v with
    | VRef l =>
        match h !! l with
        | Some (OPromise _) => (Normal v, h)
        | _ => alloc (OPromise (resolution h v)) h
        end
    | VPrim _ => alloc (OPromise (Fulfilled v)) h
    end.

(** [Promise.reject(e)] *)
Definition Promise_reject (e : value) : M value :=
  alloc (OPromise (Rejected e)).

(** [data.then(onFulfilled)]. On a native promise the callback runs on
    the fulfilment value and the new promise follows what it returns or
    throws; a rejection passes through; a promise that never settles
    yields one that never settles. *)
Definition call_then (data : value) (onFulfilled : value -> M value) : M value :=
  match data with
  | VPrim p =>
      if nullish p then throw_no_property "then" p
      else throw_new "TypeError" "then is not a function"
  | VRef l =>
      fun h =>
        match h !! l with
        | Some (OPromise (Fulfilled v)) =>
            match onFulfilled v h with
            | (Normal res, h') => alloc (OPromise (resolution h' res)) h'
            | (Throw e, h') => alloc (OPromise (Rejected e)) h'
            end
        | Some (OPromise (Rejected e)) => alloc (OPromise (Rejected e)) h
        | Some (OPromise Unsettled) => alloc (OPromise Unsettled) h
        | Some o => call (then_prop o) h
        | None => throw_new "TypeError" "then is not a function" h
        end
  end.

(** ** JSON.stringify on primitives *)

Definition quote : ascii := ascii_of_nat 34.
Definition backslash : ascii := ascii_of_nat 92.

Definition hex_digit (n : nat) : ascii :=
  ascii_of_nat (if Nat.ltb n 10 then 48 + n else 87 + n).

(** One character of a JSON string literal. *)
Definition json_escape (c : ascii) : string :=
  let n := nat_of_ascii c in
  if Nat.eqb n 34 then String backslash (String quote EmptyString)
  else if Nat.eqb n 92 then String backslash (String backslash EmptyString)
  else if Nat.eqb n 8 then String backslash "b"
  else if Nat.eqb n 9 then String backslash "t"
  else if Nat.eqb n 10 then String backslash "n"
  else if Nat.eqb n 12 then String backslash "f"
  else if Nat.eqb n 13 then String backslash "r"
  else if Nat.ltb n 32 then
    String backslash
           ("u00" +:+ String (hex_digit (n / 16)) (String (hex_digit (n mod 16)) EmptyString))
  else String c EmptyString.

Fixpoint json_escape_string (s : string) : string :=
  match s with
  | EmptyString => EmptyString
  | String c s' => json_escape c +:+ json_escape_string s'
  end.

(** [JSON.stringify(p)]; it is [undefined] on [undefined]. A number
    goes through [to_string], so its text is exact on a safe integer. *)
Definition JSON_stringify_prim (p : prim) : value :=
  match p with
  | PUndefined => VUndefined
  | PStr s => VStr (String quote (json_escape_string s) +:+ String quote EmptyString)
  | _ => VStr (to_string p)
  end.

(** ** Reading a JSON string literal

    The grammar of a JSON string (RFC 8259, section 7), to compare the
    encoder with: the value of a hexadecimal digit, the character a
    two-character escape stands for, and the characters denoted by the
    inside of a string literal. A quotation mark or a control character
    may not stand unescaped; of the [u] escapes only those of the
    characters of the model (below 256) are read. *)
Definition hex_value (c : ascii) : option nat :=
  let n := nat_of_ascii c in
  if Nat.leb 48 n && Nat.leb n 57 then Some (n - 48)
  else if Nat.leb 97 n && Nat.leb n 102 then Some (n - 87)
  else if Nat.leb 65 n && Nat.leb n 70 then Some (n - 55)
  else None.

Definition simple_escape (e : ascii) : option ascii :=
  let k := nat_of_ascii e in
  if Nat.eqb k 34 then Some quote
  else if Nat.eqb k 92 then Some backslash
  else if Nat.eqb k 47 then Some (ascii_of_nat 47)
  else if Nat.eqb k 98 then Some (ascii_of_nat 8)
  else if Nat.eqb k 102 then Some (ascii_of_nat 12)
  else if Nat.eqb k 110 then Some (ascii_of_nat 10)
  else if Nat.eqb k 114 then Some (ascii_of_nat 13)
  else if Nat.eqb k 116 then Some (ascii_of_nat 9)
  else None.

Fixpoint json_unescape (t : string) : option string :=
  match t with
  | EmptyString => Some EmptyString
  | String c t1 =>
      let n := nat_of_ascii c in
      if Nat.eqb n 92 then
        match t1 with
        | EmptyString => None
        | String e t2 =>
            if Nat.eqb (nat_of_ascii e) 117 then
              match t2 with
              | String a (String b (String x (String y t3))) =>
                  match hex_value a, hex_value b, hex_value x, hex_value y with
                  | Some 0, Some 0, Some hi, Some lo =>
                      option_map (String (ascii_of_nat (16 * hi + lo))) (json_unescape t3)
                  | _, _, _, _ => None
                  end
              | _ => None
              end
            else
              match simple_escape e with
              | Some d => option_map (String d) (json_unescape t2)
              | None => None
              end
        end
      else if Nat.eqb n 34 || Nat.ltb n 32 then None
      else option_map (String c) (json_unescape t1)
  end.

(** ** The class [Api] *)

Section Api.

(** What the class takes from outside: [Url.resolve] of the [url]
    package, [queryString.stringify] of [query-string], the encoding
    of objects by [JSON.stringify], and the global [fetch]. The first
    two are taken as functions that return: the URIError either library
    raises on text it cannot decode or encode is outside the model, and
    no statement below says which exceptions a dispatch cannot raise. *)
Variable Url_resolve : string -> string -> string.
Variable queryString_stringify : heap -> value -> string.
Variable JSON_stringify_object : heap -> loc -> completion value.
Variable global_fetch : string -> value -> M value.

(** A parameter with the default [= {}]. *)
Definition default_object (v : value) : M value :=
  match v with
  | VUndefined => alloc (OPlain ∅)
  | _ => ret v
  end.

(** [new Api(apiUrl = '', options = {})] *)
Definition new_Api (apiUrl options : value) : M value :=
  this <- alloc (OPlain ∅) ;;
  let apiUrl := match apiUrl with VUndefined => VStr "" | _ => apiUrl end in
  options <- default_object options ;;
  if negb (is_string apiUrl) then throw_new "ApiError" "Provide a valid api url."
  else
    set_prop this "API_ROOT" apiUrl ;;;
    set_prop this "options" options ;;;
    ret this.

(** [buildFullUrl(url)]; [Url.resolve] refuses a base that is not a
    string. *)
Definition buildFullUrl (this : value) (url : string) : M string :=
  if contains "http://" url || contains "www" url then ret url
  else
    root <- get_prop this "API_ROOT" ;;
    match root with
    | VStr r => ret (Url_resolve r url)
    | _ => throw_new "TypeError" "Parameter 'url' must be a string"
    end.

(** [mergeOptions(options)] *)
Definition mergeOptions (this options : value) : M value :=
  thisOptions <- get_prop this "options" ;;
  thisHeaders <- get_prop thisOptions "headers" ;;
  headers <- get_prop options "headers" ;;
  h <- get_heap ;;
  mergedHeaders <- alloc (OPlain (spread_or_empty h headers ∪ spread_or_empty h thisHeaders)) ;;
  thisQuery <- get_prop thisOptions "query" ;;
  query <- get_prop options "query" ;;
  h <- get_heap ;;
  mergedQuery <- alloc (OPlain (spread_or_empty h query ∪ spread_or_empty h thisQuery)) ;;
  h <- get_heap ;;
  alloc (OPlain (<["query" := mergedQuery]>
                 (<["headers" := mergedHeaders]>
                  (own_props h options ∪ own_props h thisOptions)))).

(** [auth(token)] *)
Definition auth (this : value) (token : prim) : M value :=
  match token with
  | PNull =>
      throw_new "ApiError" "AuthToken is null. Authorized API calls cannot be send."
  | _ =>
      headers <- alloc (OPlain {[ "Authorization" := VStr ("Token " +:+ to_string token) ]}) ;;
      options <- alloc (OPlain (<["mode" := VStr "cors"]> {[ "headers" := headers ]})) ;;
      mergedOptions <- mergeOptions this options ;;
      apiUrl <- get_prop this "apiUrl" ;;
      new_Api apiUrl mergedOptions
  end.

(** [transformerFromContentType(contentType)] *)
Definition transformerFromContentType (contentType : value) : string :=
  match contentType with
  | VStr s =>
      if contains "json" s then "json"
      else if contains "text/" s then "text"
      else "raw"
  | _ => "raw"
  end.

(** Reading the response the transport delivered. Any other value has
    no [headers] to ask (unless a test double supplies one, which is
    not modelled). *)
Definition as_response (response : value) : M Response :=
  match response with
  | VPrim p =>
      if nullish p then throw_no_property "headers" p
      else throw_no_property "get" PUndefined
  | VRef l =>
      fun h =>
        match h !! l with
        | Some (OResponse r) => (Normal r, h)
        | _ => throw_no_property "get" PUndefined h
        end
  end.

(** [transformer(response)] *)
Definition transformer (this response : value) : M value :=
  r <- as_response response ;;
  let contentType := headers_get r "Content-Type" in
  let transformerName := transformerFromContentType contentType in
  member <- get_prop response transformerName ;;
  h <- get_heap ;;
  if negb (is_function h member) then
    throw_new "ApiError" ("Response has no transformer with name " +:+ transformerName)
  else bind_this member response.

(** [transform(response)] *)
Definition transform (this response : value) : M value :=
  decode <- transformer this response ;;
  data <- call decode ;;
  r <- as_response response ;;
  if negb (ok r) then
    error <- alloc (OError "ApiError"
                      ("Response has no ok-status (" +:+ pretty (status r) +:+ " - " +:+
                       statusText r +:+ ")") ∅) ;;
    set_prop error "response" response ;;;
    thenable <- has_then data ;;
    if thenable then
      call_then data (fun data =>
        set_prop error "data" data ;;;
        Promise_reject error)
    else
      set_prop error "data" data ;;;
      Promise_reject error
  else
    thenable <- has_then data ;;
    if thenable then
      call_then data (fun data =>
        outcome <- alloc (OPlain (<["data" := data]> {[ "response" := response ]})) ;;
        Promise_resolve outcome)
    else
      outcome <- alloc (OPlain (<["data" := data]> {[ "response" := response ]})) ;;
      Promise_resolve outcome.

(** Lines 130 to 134 of [fetch(url, options = {})]: the merged
    options and the URL handed to [buildFullUrl]. *)
Definition fetch_url (this : value) (url : string) (options : value) : M (value * string) :=
  options <- default_object options ;;
  mergedOptions <- mergeOptions this options ;;
  query <- get_prop mergedOptions "query" ;;
  if truthy query then
    h <- get_heap ;;
    ret (mergedOptions, url +:+ "?" +:+ queryString_stringify h query)
  else ret (mergedOptions, url).

(** [fetch(url, options = {})] *)
Definition fetch (this : value) (url : string) (options : value) : M value :=
  request <- fetch_url this url options ;;
  fullUrl <- buildFullUrl this (snd request) ;;
  response <- global_fetch fullUrl (fst request) ;;
  call_then response (transform this).

(** [JSON.stringify(json)]: it is [undefined] on a function, as on
    [undefined]; the encoding of any other object is the parameter. *)
Definition JSON_stringify (json : value) : M value :=
  match json with
  | VPrim p => ret (JSON_stringify_prim p)
  | VRef l =>
      fun h =>
        match h !! l with
        | Some (OFunction _) => (Normal VUndefined, h)
        | _ => (JSON_stringify_object h l, h)
        end
  end.

(** [fetchWithJSON(url, json, options)] *)
Definition fetchWithJSON (this : value) (url : string) (json options : value) : M value :=
  match json with
  | VUndefined => throw_new "ApiError" "No JSON object given"
  | _ =>
      h <- get_heap ;;
      headers <- alloc (OPlain (<["Content-Type" := VStr "application/json"]>
                                {[ "Accept" := VStr "application/json" ]})) ;;
      body <- JSON_stringify json ;;
      request <- alloc (OPlain (<["body" := body]>
                                (<["headers" := headers]> (own_props h options)))) ;;
      fetch this url request
  end.

(** [{...options, method: m}] *)
Definition with_method (options : value) (m : string) : M value :=
  h <- get_heap ;;
  alloc (OPlain (<["method" := VStr m]> (own_props h options))).

Definition get (this : value) (url : string) (options : value) : M value :=
  request <- with_method options "get" ;; fetch this url request.

Definition post (this : value) (url : string) (options : value) : M value :=
  request <- with_method options "post" ;; fetch this url request.

Definition postJSON (this : value) (url : string) (json options : value) : M value :=
  request <- with_method options "post" ;; fetchWithJSON this url json request.

Definition put (this : value) (url : string) (options : value) : M value :=
  request <- with_method options "put" ;; fetch this url request.

Definition putJSON (this : value) (url : string) (json options : value) : M value :=
  request <- with_method options "put" ;; fetchWithJSON this url json request.

End Api.

(** ** Reading the heap *)

(** A [headers] or [query] entry of a configuration: absent, or a
    reference to a plain mapping. *)
Definition mapping_of (h : heap) (v : value) : option (gmap string value) :=
  match v with
  | VUndefined | VNull => Some ∅
  | VRef l =>
      match h !! l with
      | Some (OPlain props) => Some props
      | _ => None
      end
  | _ => None
  end.

(** A configuration as the data model has it: a plain object whose
    [headers] and [query], when present, are mappings. *)
Record Configuration : Type := mkConfiguration {
  cfg_props : gmap string value;
  cfg_headers : gmap string value;
  cfg_query : gmap string value
}.

Definition read_config (h : heap) (v : value) : option Configuration :=
  match v with
  | VRef l =>
      match h !! l with
      | Some (OPlain props) =>
          match mapping_of h (field props "headers"), mapping_of h (field props "query") with
          | Some hs, Some q => Some (mkConfiguration props hs q)
          | _, _ => None
          end
      | _ => None
      end
  | VPrim _ => None
  end.

(** The two fields the constructor assigns to a client. *)
Definition read_client (h : heap) (v : value) : option (value * value) :=
  match v with
  | VRef l =>
      match h !! l with
      | Some (OPlain props) =>
          match props !! "API_ROOT", props !! "options" with
          | Some root, Some options => Some (root, options)
          | _, _ => None
          end
      | _ => None
      end
  | VPrim _ => None
  end.

(** The properties of a client as the constructor assigns them. *)
Definition client_props (root : string) (options : value) : gmap string value :=
  <["options" := options]> (<["API_ROOT" := VStr root]> ∅).

(** The object literal on line 116, built after the merged headers and
    query were allocated at the end of [h]. *)
Definition merged_props (h : heap) (A B : Configuration) : gmap string value :=
  <["query" := VRef (1 + length h)]>
    (<["headers" := VRef (length h)]> (cfg_props B ∪ cfg_props A)).

(** The object literal [auth] passes to [mergeOptions], allocated at
    the end of [h], and the configuration it amounts to. *)
Definition auth_options (h : heap) (token : prim) : list object :=
  [ OPlain {[ "Authorization" := VStr ("Token " +:+ to_string token) ]};
    OPlain (<["mode" := VStr "cors"]> {[ "headers" := VRef (length h) ]}) ].

Definition auth_config (h : heap) (token : prim) : Configuration :=
  mkConfiguration (<["mode" := VStr "cors"]> {[ "headers" := VRef (length h) ]})
                  {[ "Authorization" := VStr ("Token " +:+ to_string token) ]} ∅.

(** The decoder [transformer] selects for a response. *)
Definition decoder_name (r : Response) : string :=
  transformerFromContentType (headers_get r "Content-Type").

(** The decoded body behind what a decoder returned: the value itself
    when it is immediate (neither [null] nor [undefined], and without a
    callable [then]), the fulfilment value when it is a promise that
    fulfils. *)
Definition awaited (h : heap) (d : value) : option value :=
  match d with
  | VPrim p => if nullish p then None else Some d
  | VRef l =>
      match h !! l with
      | Some (OPromise (Fulfilled v)) => Some v
      | Some (OPromise _) => None
      | Some o =>
          match then_prop o with
          | VPrim _ => Some d
          | VRef t =>
              match h !! t with
              | Some (OFunction _) | None => None
              | Some _ => Some d
              end
          end
      | None => None
      end
  end.

(** The properties of a success outcome and of an ok-status error. *)
Definition outcome_props (response data : value) : gmap string value :=
  <["data" := data]> {[ "response" := response ]}.

Definition ok_status_message (r : Response) : string :=
  "Response has no ok-status (" +:+ pretty (status r) +:+ " - " +:+ statusText r +:+ ")".

(** The headers [fetchWithJSON] sets. *)
Definition json_headers : gmap string value :=
  <["Content-Type" := VStr "application/json"]> {[ "Accept" := VStr "application/json" ]}.

(** The contract of the transport: it throws nothing and returns a
    promise. *)
Definition returns_promise (transport : string -> value -> M value) : Prop :=
  forall (url : string) (options : value) (h : heap),
    exists (p : loc) (s : settlement) (h' : heap),
      transport url options h = (Normal (VRef p), h') /\ h' !! p = Some (OPromise s).

(** ** Requests, derived clients and frames *)

(** Lines 136 to 141 of [fetch]: what is done with a request once its
    options and URL are built. *)
Definition fetch_send (Url_resolve : string -> string -> string)
           (global_fetch : string -> value -> M value)
           (this : value) (request : value * string) : M value :=
  fullUrl <- buildFullUrl Url_resolve this (snd request) ;;
  response <- global_fetch fullUrl (fst request) ;;
  call_then response (transform this).

(** The three verbs that dispatch without a body, with the method each names. *)
Definition verbs (Url_resolve : string -> string -> string)
           (queryString_stringify : heap -> value -> string)
           (global_fetch : string -> value -> M value) :
  list (string * (value -> string -> value -> M value)) :=
  [ ("get", get Url_resolve queryString_stringify global_fetch);
    ("post", post Url_resolve queryString_stringify global_fetch);
    ("put", put Url_resolve queryString_stringify global_fetch) ].

(** The two verbs that dispatch a JSON body, with the method each names. *)
Definition json_verbs (Url_resolve : string -> string -> string)
           (queryString_stringify : heap -> value -> string)
           (JSON_stringify_object : heap -> loc -> completion value)
           (global_fetch : string -> value -> M value) :
  list (string * (value -> string -> value -> value -> M value)) :=
  [ ("post", postJSON Url_resolve queryString_stringify JSON_stringify_object global_fetch);
    ("put", putJSON Url_resolve queryString_stringify JSON_stringify_object global_fetch) ].

(** The object literal on lines 149 to 156, built after the JSON headers
    were allocated at the end of [h]. *)
Definition json_request (h : heap) (options body : value) : gmap string value :=
  <["body" := body]> (<["headers" := VRef (length h)]> (own_props h options)).



(** A computation that leaves the objects of [h0] as they are: run on
    any heap that extends [h0], it ends in a heap that extends [h0]. *)
Definition preserves {A} (h0 : heap) (m : M A) : Prop :=
  forall (h h' : heap) (r : completion A),
    h0 `prefix_of` h -> m h = (r, h') -> h0 `prefix_of` h'.

(** A transport that changes no object that exists when it is called. *)
Definition allocates_only (transport : string -> value -> M value) : Prop :=
  forall (url : string) (options : value) (h h' : heap) (r : completion value),
    transport url options h = (r, h') -> h `prefix_of` h'.

(** ** Example inputs *)

(** The heap of the test "should merge fetch headers": the client, its
    options and their headers, then the argument and its headers. *)
Definition headers_test_heap : heap :=
  [ OPlain (client_props "http://example.com" (VRef 1));
    OPlain {[ "headers" := VRef 2 ]};
    OPlain (<["Foo" := VStr "Bar"]> {[ "Content-Type" := VStr "json" ]});
    OPlain {[ "headers" := VRef 4 ]};
    OPlain (<["Token" := VStr "123"]> {[ "Content-Type" := VStr "text" ]}) ].

Definition headers_test_base : Configuration :=
  mkConfiguration {[ "headers" := VRef 2 ]}
                  (<["Foo" := VStr "Bar"]> {[ "Content-Type" := VStr "json" ]}) ∅.

Definition headers_test_override : Configuration :=
  mkConfiguration {[ "headers" := VRef 4 ]}
                  (<["Token" := VStr "123"]> {[ "Content-Type" := VStr "text" ]}) ∅.

(** [new Api('http://example.com')], the client of the tests: the
    client itself, then the [{}] its options default to. *)
Definition sample_heap : heap :=
  [ OPlain (client_props "http://example.com" (VRef 1)); OPlain ∅ ].

(** [sample_heap] after [fetch('/sample')] built its request: the
    default [{}] of the call, the merged headers, the merged query and
    the merged options. *)
Definition sample_request_heap : heap :=
  sample_heap ++
  [ OPlain ∅; OPlain ∅; OPlain ∅;
    OPlain (<["query" := VRef 4]> (<["headers" := VRef 3]> ∅)) ].

(** A response without Content-Type, as [buildResponse] of the tests
    makes it: the classification is [raw], and [raw] is the function at
    location 0. *)
Definition test_response (is_ok : bool) (code : Z) (text : string) : Response :=
  mkResponse is_ok code text (fun _ => VNull) {[ "raw" := VRef 0 ]}.

(** The test "should reject with transformed response": [raw] returns
    the data at once and the status is 404. *)
Definition not_found_heap : heap :=
  [ OFunction (Normal (VStr "data")); OResponse (test_response false 404 "Not Found") ].

(** A JSON response as the standard transport delivers it: [json]
    returns a promise, here one that fulfils with the decoded data. *)
Definition json_response : Response :=
  mkResponse true 200 "OK"
             (fun name => if String.eqb name "Content-Type" then VStr "application/json"
                          else VNull)
             {[ "json" := VRef 1 ]}.

Definition json_heap : heap :=
  [ OPromise (Fulfilled (VStr "data")); OFunction (Normal (VRef 0)); OResponse json_response ].

(** A 200 response whose [raw] returns [null]. *)
Definition null_body_heap : heap :=
  [ OFunction (Normal VNull); OResponse (test_response true 200 "OK") ].

(** A 200 response without Content-Type that has no [raw], as a
    response of the standard transport has none. *)
Definition bare_response : Response :=
  mkResponse true 200 "OK" (fun _ => VNull) ∅.

Definition no_decoder_heap : heap := [ OResponse bare_response ].

(** A transport that answers every request with the response [r]. *)
Definition stub_transport (r : Response) (url : string) (options : value) : M value :=
  response <- alloc (OResponse r) ;;
  alloc (OPromise (Fulfilled response)).

(** A codec and an object encoder to run examples with; their results
    do not matter there. *)
Definition stub_stringify (h : heap) (v : value) : string := "".

Definition stub_encode (h : heap) (l : loc) : completion value := Normal (VStr "{}").

(** The responses of the tests on [transformer]: [json], [text] and
    [raw] are test doubles at locations 0, 1 and 2 (the symbols they
    return are written as strings), the response is at location 3. *)
Definition typed_response_heap (contentType : string) : heap :=
  [ OFunction (Normal (VStr "jsonSymbol"));
    OFunction (Normal (VStr "textSymbol"));
    OFunction (Normal (VStr "rawSymbol"));
    OResponse (mkResponse true 200 "OK"
                 (fun name => if String.eqb name "Content-Type" then VStr contentType
                              else VNull)
                 (<["raw" := VRef 2]> (<["text" := VRef 1]> {[ "json" := VRef 0 ]}))) ].

(** The test "should resolve with transformed response". *)
Definition found_heap : heap :=
  [ OFunction (Normal (VStr "data")); OResponse (test_response true 200 "OK") ].

(** The test "should merge fetch options": the client, its options, the
    argument. *)
Definition options_test_heap : heap :=
  [ OPlain (client_props "http://example.com" (VRef 1));
    OPlain (<["auth" := VNum 123]> {[ "method" := VStr "get" ]});
    OPlain (<["auth" := VNum 321]> {[ "foo" := VStr "bar" ]}) ].

(** [new Api('http://example.com', null)]: the constructor's default
    does not apply to [null]. *)
Definition null_options_heap : heap :=
  [ OPlain (client_props "http://example.com" VNull) ].

(** The two configurations of [options_test_heap]. *)
Definition options_test_base : Configuration :=
  mkConfiguration (<["auth" := VNum 123]> {[ "method" := VStr "get" ]}) ∅ ∅.

Definition options_test_override : Configuration :=
  mkConfiguration (<["auth" := VNum 321]> {[ "foo" := VStr "bar" ]}) ∅ ∅.

(** A 404 response with a JSON content type whose [json] returns a
    promise that rejects, as on a body that is not JSON. *)
Definition broken_json_response : Response :=
  mkResponse false 404 "Not Found"
             (fun name => if String.eqb name "Content-Type" then VStr "application/json"
                          else VNull)
             {[ "json" := VRef 1 ]}.

Definition broken_json_heap : heap :=
  [ OPromise (Rejected (VStr "Unexpected token"));
    OFunction (Normal (VRef 0));
    OResponse broken_json_response ].

(** A transport whose promise rejects with [e], as on a network failure. *)
Definition failing_transport (e : value) (url : string) (options : value) : M value :=
  alloc (OPromise (Rejected e)).





(** [sample_heap] with a function at location 2, to send as JSON. *)
Definition function_payload_heap : heap :=
  sample_heap ++ [ OFunction (Normal (VStr "result")) ].

(** * Properties *)

(** ** Substring search *)

Lemma append_cons (c : ascii) (a b : string) : String c a +:+ b = String c (a +:+ b).
Proof. reflexivity. Qed.

Lemma prefix_true_iff (pat s : string) :
  String.prefix pat s = true <-> exists b, s = pat +:+ b.
Proof.
  revert s. induction pat as [|c pat IH]; intros s.
  - split; [intros _; exists s; reflexivity | destruct s; reflexivity].
  - destruct s as [|d s]; simpl.
    + split; [discriminate | intros [b Hb]; discriminate].
    + destruct (Ascii.ascii_dec c d) as [->|Hne].
      * rewrite IH. split; intros [b Hb]; exists b; rewrite append_cons in *; congruence.
      * split; [discriminate | intros [b Hb]; rewrite append_cons in Hb; congruence].
Qed.

Lemma contains_occurs (pat s : string) : contains pat s = true <-> occurs pat s.
Proof.
  induction s as [|c s IH].
  - destruct pat as [|d pat]; simpl.
    + split; [intros _; exists "", ""; reflexivity | reflexivity].
    + split; [discriminate | intros (a & b & Hab); destruct a; discriminate].
  - cbn [contains]. rewrite orb_true_iff, IH, prefix_true_iff. split.
    + intros [[b Hb] | (a & b & Hab)].
      * exists "", b. exact Hb.
      * exists (String c a), b. rewrite append_cons. congruence.
    + intros (a & b & Hab). destruct a as [|d a].
      * left. exists b. exact Hab.
      * right. exists a, b. rewrite append_cons in Hab. congruence.
Qed.

Lemma contains_false_iff (pat s : string) : contains pat s = false <-> ~ occurs pat s.
Proof.
  rewrite <- contains_occurs. destruct (contains pat s); split; congruence.
Qed.

Lemma starts_with_occurs (pat s : string) : starts_with pat s = true -> occurs pat s.
Proof.
  unfold starts_with. rewrite prefix_true_iff. intros [b Hb]. exists "", b. exact Hb.
Qed.

(** ** Content-type classification *)

(** C2, as the code has it: a value that is not a string is classified
    [raw]; a string in which [json] occurs anywhere is [json]; otherwise a
    string in which [text/] occurs anywhere is [text], in particular one
    that starts with [text/]; every other string is [raw]. *)
Theorem transformerFromContentType_spec (contentType : value) :
  (is_string contentType = false -> transformerFromContentType contentType = "raw") /\
  (forall s, contentType = VStr s ->
     (occurs "json" s -> transformerFromContentType contentType = "json") /\
     (~ occurs "json" s -> occurs "text/" s ->
      transformerFromContentType contentType = "text") /\
     (~ occurs "json" s -> starts_with "text/" s = true ->
      transformerFromContentType contentType = "text") /\
     (~ occurs "json" s -> ~ occurs "text/" s ->
      transformerFromContentType contentType = "raw")).
Proof.
  split.
  - destruct contentType as [[| | | |s]|l]; simpl; congruence.
  - intros s ->. unfold transformerFromContentType.
    repeat split.
    + intros Hj. apply contains_occurs in Hj. rewrite Hj. reflexivity.
    + intros Hj Ht. apply contains_false_iff in Hj. apply contains_occurs in Ht.
      rewrite Hj, Ht. reflexivity.
    + intros Hj Ht. apply contains_false_iff in Hj.
      apply starts_with_occurs, contains_occurs in Ht. rewrite Hj, Ht. reflexivity.
    + intros Hj Ht. apply contains_false_iff in Hj. apply contains_false_iff in Ht.
      rewrite Hj, Ht. reflexivity.
Qed.

Lemma transformerFromContentType_spec_witness :
  transformerFromContentType (VStr "text/plain") = "text" /\
  transformerFromContentType (VStr "application/json") = "json" /\
  transformerFromContentType (VStr "something-unknown") = "raw".
Proof.
  destruct (proj2 (transformerFromContentType_spec (VStr "text/plain"))
              "text/plain" eq_refl) as (_ & Htext & _ & _).
  destruct (proj2 (transformerFromContentType_spec (VStr "application/json"))
              "application/json" eq_refl) as (Hjson & _ & _ & _).
  destruct (proj2 (transformerFromContentType_spec (VStr "something-unknown"))
              "something-unknown" eq_refl) as (_ & _ & _ & Hraw).
  split; [|split].
  - apply Htext; [apply contains_false_iff | apply contains_occurs]; reflexivity.
  - apply Hjson. apply contains_occurs. reflexivity.
  - apply Hraw; apply contains_false_iff; reflexivity.
Defined.

(** C2 as the specification words it fails: a string without [json]
    that does not start with [text/] may still be classified [text]. *)
Lemma transformerFromContentType_not_anchored :
  ~ (forall s, ~ occurs "json" s -> starts_with "text/" s = false ->
               transformerFromContentType (VStr s) = "raw").
Proof.
  intros Hclaim.
  specialize (Hclaim "multipart/related; type=text/xml").
  assert (Hj : ~ occurs "json" "multipart/related; type=text/xml")
    by (apply contains_false_iff; reflexivity).
  specialize (Hclaim Hj eq_refl). discriminate Hclaim.
Qed.

(** ** Running monadic code on a heap *)

Lemma lookup_alloc_new (k : nat) (h t : heap) : (h ++ t) !! (k + length h) = t !! k.
Proof. rewrite lookup_app_r by lia. f_equal. lia. Qed.

Lemma insert_alloc_new (k : nat) (h t : heap) (o : object) :
  <[k + length h := o]> (h ++ t) = h ++ <[k := o]> t.
Proof. rewrite insert_app_r_alt by lia. do 2 f_equal. lia. Qed.

Lemma length_alloc (h t : heap) : length (h ++ t) = length t + length h.
Proof. rewrite length_app. lia. Qed.

Lemma run_bind {A B} (m : M A) (k : A -> M B) (h h1 : heap) (a : A) r :
  m h = (Normal a, h1) -> k a h1 = r -> bind m k h = r.
Proof. intros Hm Hk. unfold bind. rewrite Hm. exact Hk. Qed.

Lemma run_bind_throw {A B} (m : M A) (k : A -> M B) (h h1 : heap) (e : value) :
  m h = (Throw e, h1) -> bind m k h = (Throw e, h1).
Proof. intros Hm. unfold bind. rewrite Hm. reflexivity. Qed.

Lemma get_prop_plain (h : heap) (l : loc) props name :
  h !! l = Some (OPlain props) -> get_prop (VRef l) name h = (Normal (field props name), h).
Proof. intros Hl. unfold get_prop. rewrite Hl. reflexivity. Qed.

Lemma own_props_plain (h : heap) (l : loc) props :
  h !! l = Some (OPlain props) -> own_props h (VRef l) = props.
Proof. intros Hl. unfold own_props. rewrite Hl. reflexivity. Qed.

Lemma set_prop_plain (h : heap) (l : loc) props name v :
  h !! l = Some (OPlain props) ->
  set_prop (VRef l) name v h = (Normal (), <[l := OPlain (<[name := v]> props)]> h).
Proof. intros Hl. unfold set_prop. rewrite Hl. reflexivity. Qed.

Lemma set_prop_error (h : heap) (l : loc) cls msg props name v :
  h !! l = Some (OError cls msg props) ->
  set_prop (VRef l) name v h = (Normal (), <[l := OError cls msg (<[name := v]> props)]> h).
Proof. intros Hl. unfold set_prop. rewrite Hl. reflexivity. Qed.

(** The position of a location allocated after [h]. *)
Ltac offset t h :=
  match t with
  | length h => constr:(0)
  | S ?t' => let k := offset t' h in constr:(S k)
  end.

(** Heaps are kept in the form [h ++ [o1; ...; on]]. *)
Ltac heap_norm :=
  repeat rewrite <- app_assoc;
  repeat rewrite length_alloc;
  repeat match goal with
         | |- context [<[?i := ?o]> (?h ++ ?t)] =>
             let k := offset i h in
             change (<[i := o]> (h ++ t)) with (<[k + length h := o]> (h ++ t));
             rewrite (insert_alloc_new k h t o)
         end;
  cbn [List.length Nat.add app insert list_insert].

Ltac heap_lookup :=
  heap_norm;
  lazymatch goal with
  | |- (?h ++ ?t) !! ?i = _ =>
      first [ let k := offset i h in exact (lookup_alloc_new k h t)
            | apply lookup_app_l_Some; eassumption ]
  | |- _ => eassumption
  end.

(** Reading a location allocated after [h]. *)
Ltac heap_read :=
  match goal with
  | |- context [(?h ++ ?t) !! ?i] =>
      let k := offset i h in
      change ((h ++ t) !! i) with ((h ++ t) !! (k + length h));
      rewrite (lookup_alloc_new k h t); cbn [lookup list_lookup]
  end.

(** One statement of the source: run it, continue with the rest. *)
Ltac js_step tac := eapply run_bind; [ tac | heap_norm ].
Ltac js_get := js_step ltac:(apply get_prop_plain; heap_lookup).
Ltac js_do := js_step ltac:(reflexivity).

(** ** Configurations in the heap *)

Lemma mapping_of_spread (h t : heap) (v : value) m :
  mapping_of h v = Some m -> spread_or_empty (h ++ t) v = m.
Proof.
  unfold mapping_of, spread_or_empty.
  destruct v as [[| | | |]|l]; simpl; try congruence.
  destruct (h !! l) as [[]|] eqn:Hl; try congruence.
  intros [= <-]. rewrite (lookup_app_l_Some _ _ _ _ Hl). reflexivity.
Qed.

Lemma mapping_of_extend (h t : heap) (v : value) m :
  mapping_of h v = Some m -> mapping_of (h ++ t) v = Some m.
Proof.
  unfold mapping_of.
  destruct v as [[| | | |]|l]; simpl; try congruence.
  destruct (h !! l) as [[]|] eqn:Hl; try congruence.
  intros [= <-]. rewrite (lookup_app_l_Some _ _ _ _ Hl). reflexivity.
Qed.

Lemma read_config_inv (h : heap) (v : value) (C : Configuration) :
  read_config h v = Some C ->
  exists l, v = VRef l /\ h !! l = Some (OPlain (cfg_props C)) /\
            mapping_of h (field (cfg_props C) "headers") = Some (cfg_headers C) /\
            mapping_of h (field (cfg_props C) "query") = Some (cfg_query C).
Proof.
  unfold read_config. destruct v as [p|l]; [discriminate|].
  destruct (h !! l) as [[props| | | |]|] eqn:Hl; try discriminate.
  destruct (mapping_of h (field props "headers")) as [hs|] eqn:Hh; [|discriminate].
  destruct (mapping_of h (field props "query")) as [q|] eqn:Hq; [|discriminate].
  intros [= <-]. exists l. simpl. auto.
Qed.

Lemma read_config_intro (h : heap) (l : loc) props hs q :
  h !! l = Some (OPlain props) ->
  mapping_of h (field props "headers") = Some hs ->
  mapping_of h (field props "query") = Some q ->
  read_config h (VRef l) = Some (mkConfiguration props hs q).
Proof. intros Hl Hh Hq. unfold read_config. rewrite Hl, Hh, Hq. reflexivity. Qed.

Lemma read_config_extend (h t : heap) (v : value) (C : Configuration) :
  read_config h v = Some C -> read_config (h ++ t) v = Some C.
Proof.
  intros (l & -> & Hl & Hh & Hq)%read_config_inv. destruct C as [props hs q].
  apply read_config_intro.
  - apply lookup_app_l_Some. exact Hl.
  - apply mapping_of_extend. exact Hh.
  - apply mapping_of_extend. exact Hq.
Qed.

(** ** Merging options *)

Lemma mapping_of_spread_here (h : heap) (v : value) m :
  mapping_of h v = Some m -> spread_or_empty h v = m.
Proof. intros Hm. rewrite <- (app_nil_r h). apply mapping_of_spread. exact Hm. Qed.

Lemma mergeOptions_run (h : heap) (c a b : loc) cp (A B : Configuration) :
  h !! c = Some (OPlain cp) ->
  cp !! "options" = Some (VRef a) ->
  read_config h (VRef a) = Some A ->
  read_config h (VRef b) = Some B ->
  mergeOptions (VRef c) (VRef b) h =
    (Normal (VRef (2 + length h)),
     h ++ [OPlain (cfg_headers B ∪ cfg_headers A);
           OPlain (cfg_query B ∪ cfg_query A);
           OPlain (merged_props h A B)]).
Proof.
  intros Hc Hcp (a' & [= <-] & Ha & Hah & Haq)%read_config_inv
         (b' & [= <-] & Hb & Hbh & Hbq)%read_config_inv.
  assert (Hopt : field cp "options" = VRef a) by (unfold field; rewrite Hcp; reflexivity).
  unfold mergeOptions.
  js_get. rewrite Hopt. js_get. js_get. js_do. js_do. js_get. js_get. js_do. js_do. js_do.
  unfold alloc. heap_norm.
  rewrite (mapping_of_spread_here _ _ _ Hah), (mapping_of_spread_here _ _ _ Hbh).
  rewrite (mapping_of_spread _ _ _ _ Haq), (mapping_of_spread _ _ _ _ Hbq).
  rewrite (own_props_plain _ a (cfg_props A)) by heap_lookup.
  rewrite (own_props_plain _ b (cfg_props B)) by heap_lookup.
  reflexivity.
Qed.

Lemma union_lookup_right_biased (B A : gmap string value) (k : string) :
  (B ∪ A) !! k = match B !! k with Some v => Some v | None => A !! k end.
Proof.
  rewrite lookup_union. destruct (B !! k), (A !! k); reflexivity.
Qed.

Lemma field_lookup (props : gmap string value) (name : string) (v : value) :
  props !! name = Some v -> field props name = v.
Proof. unfold field. intros ->. reflexivity. Qed.

Lemma mapping_of_ref (h : heap) (l : loc) props :
  h !! l = Some (OPlain props) -> mapping_of h (VRef l) = Some props.
Proof. unfold mapping_of. intros ->. reflexivity. Qed.

Lemma mapping_of_absent (h : heap) (props : gmap string value) (name : string) m :
  props !! name = None -> mapping_of h (field props name) = Some m -> m = ∅.
Proof. unfold field. intros ->. simpl. congruence. Qed.

(** C6: the merged headers are the key-union of the two headers
    mappings, the argument winning on a common key, and so is the merged
    query; the result has both keys, each naming a mapping allocated by
    the call (empty when neither side has the key); the heap only grows,
    so both inputs read as before. *)
Theorem mergeOptions_union (h : heap) (c a b : loc) cp (A B : Configuration) :
  h !! c = Some (OPlain cp) ->
  cp !! "options" = Some (VRef a) ->
  read_config h (VRef a) = Some A ->
  read_config h (VRef b) = Some B ->
  exists m h' M,
    mergeOptions (VRef c) (VRef b) h = (Normal m, h') /\
    read_config h' m = Some M /\
    (forall k, cfg_headers M !! k =
               match cfg_headers B !! k with Some v => Some v | None => cfg_headers A !! k end) /\
    (forall k, cfg_query M !! k =
               match cfg_query B !! k with Some v => Some v | None => cfg_query A !! k end) /\
    (exists lh lq,
        cfg_props M !! "headers" = Some (VRef lh) /\ h' !! lh = Some (OPlain (cfg_headers M)) /\
        cfg_props M !! "query" = Some (VRef lq) /\ h' !! lq = Some (OPlain (cfg_query M)) /\
        length h <= lh /\ length h <= lq) /\
    (cfg_props A !! "headers" = None -> cfg_props B !! "headers" = None -> cfg_headers M = ∅) /\
    (cfg_props A !! "query" = None -> cfg_props B !! "query" = None -> cfg_query M = ∅) /\
    h `prefix_of` h' /\
    read_config h' (VRef a) = Some A /\
    read_config h' (VRef b) = Some B.
Proof.
  intros Hc Hcp HA HB.
  pose proof (mergeOptions_run h c a b cp A B Hc Hcp HA HB) as Hrun.
  destruct (read_config_inv _ _ _ HA) as (a' & [= <-] & Ha & Hah & Haq).
  destruct (read_config_inv _ _ _ HB) as (b' & [= <-] & Hb & Hbh & Hbq).
  eexists _, _, (mkConfiguration (merged_props h A B)
                   (cfg_headers B ∪ cfg_headers A) (cfg_query B ∪ cfg_query A)).
  split; [exact Hrun|].
  assert (Hmh : merged_props h A B !! "headers" = Some (VRef (length h))).
  { unfold merged_props. rewrite lookup_insert_ne by discriminate.
    apply lookup_insert_eq. }
  assert (Hmq : merged_props h A B !! "query" = Some (VRef (1 + length h))).
  { unfold merged_props. apply lookup_insert_eq. }
  split; [|split; [|split; [|split; [|split; [|split; [|split; [|split]]]]]]].
  - apply read_config_intro.
    + heap_lookup.
    + rewrite (field_lookup _ _ _ Hmh). apply mapping_of_ref. heap_lookup.
    + rewrite (field_lookup _ _ _ Hmq). apply mapping_of_ref. heap_lookup.
  - intros k. apply union_lookup_right_biased.
  - intros k. apply union_lookup_right_biased.
  - exists (length h), (1 + length h). cbn [cfg_props cfg_headers cfg_query].
    repeat split; [exact Hmh | heap_lookup | exact Hmq | heap_lookup | lia | lia].
  - intros HnA HnB. cbn [cfg_headers].
    rewrite (mapping_of_absent _ _ _ _ HnA Hah), (mapping_of_absent _ _ _ _ HnB Hbh).
    apply map_empty_union.
  - intros HnA HnB. cbn [cfg_query].
    rewrite (mapping_of_absent _ _ _ _ HnA Haq), (mapping_of_absent _ _ _ _ HnB Hbq).
    apply map_empty_union.
  - apply prefix_app_r. reflexivity.
  - apply read_config_extend. exact HA.
  - apply read_config_extend. exact HB.
Qed.

Lemma mergeOptions_union_witness :
  exists m h' M,
    mergeOptions (VRef 0) (VRef 3) headers_test_heap = (Normal m, h') /\
    read_config h' m = Some M /\
    cfg_headers M !! "Content-Type" = Some (VStr "text") /\
    cfg_headers M !! "Foo" = Some (VStr "Bar") /\
    cfg_headers M !! "Token" = Some (VStr "123").
Proof.
  destruct (mergeOptions_union headers_test_heap 0 1 3
              (client_props "http://example.com" (VRef 1))
              headers_test_base headers_test_override)
    as (m & h' & M & Hrun & Hread & Hheaders & _);
    [vm_compute; reflexivity ..|].
  exists m, h', M. rewrite !Hheaders. repeat split; [exact Hrun | exact Hread].
Defined.

(** ** Clients and [auth] *)

Ltac js_set :=
  js_step ltac:(first [apply set_prop_plain; heap_lookup | apply set_prop_error; heap_lookup]).

Lemma new_Api_run (h : heap) (apiUrl : value) (root : string) (o : loc) :
  apiUrl = VStr root \/ (apiUrl = VUndefined /\ root = "") ->
  new_Api apiUrl (VRef o) h =
    (Normal (VRef (length h)), h ++ [OPlain (client_props root (VRef o))]).
Proof.
  intros [-> | [-> ->]]; unfold new_Api; js_do; cbv beta iota zeta;
    js_do; cbn [is_string negb]; js_set; js_set; reflexivity.
Qed.

Lemma auth_config_read (h : heap) (token : prim) :
  read_config (h ++ auth_options h token) (VRef (1 + length h)) = Some (auth_config h token).
Proof.
  unfold auth_options, auth_config. apply read_config_intro.
  - heap_lookup.
  - rewrite (field_lookup _ "headers" (VRef (length h))).
    + apply mapping_of_ref. heap_lookup.
    + rewrite lookup_insert_ne by discriminate. apply lookup_singleton_eq.
  - unfold field. rewrite lookup_insert_ne by discriminate.
    rewrite lookup_singleton_ne by discriminate. reflexivity.
Qed.

Lemma auth_run (h : heap) (c a : loc) cp (A : Configuration) (token : prim) :
  h !! c = Some (OPlain cp) ->
  cp !! "options" = Some (VRef a) ->
  cp !! "apiUrl" = None ->
  read_config h (VRef a) = Some A ->
  token <> PNull ->
  auth (VRef c) token h =
    (Normal (VRef (5 + length h)),
     h ++ auth_options h token ++
       [OPlain (cfg_headers (auth_config h token) ∪ cfg_headers A);
        OPlain (cfg_query (auth_config h token) ∪ cfg_query A);
        OPlain (merged_props (h ++ auth_options h token) A (auth_config h token));
        OPlain (client_props "" (VRef (4 + length h)))]).
Proof.
  intros Hc Hcp Hurl HA Htoken.
  assert (auth (VRef c) token h =
            (headers <- alloc (OPlain {[ "Authorization" :=
                                           VStr ("Token " +:+ to_string token) ]}) ;;
             options <- alloc (OPlain (<["mode" := VStr "cors"]> {[ "headers" := headers ]})) ;;
             mergedOptions <- mergeOptions (VRef c) options ;;
             apiUrl <- get_prop (VRef c) "apiUrl" ;;
             new_Api apiUrl mergedOptions) h) as ->
    by (destruct token; congruence || reflexivity).
  js_do. js_do.
  js_step ltac:(apply (mergeOptions_run _ c a _ cp A (auth_config h token));
                [ heap_lookup | exact Hcp
                | apply (read_config_extend h (auth_options h token)); exact HA
                | apply (auth_config_read h token) ]).
  js_get. unfold field at 1. rewrite Hurl. cbn [default].
  rewrite (new_Api_run _ VUndefined "") by (right; split; reflexivity).
  heap_norm. reflexivity.
Qed.

Lemma lookup_client_options (root : string) (options : value) :
  client_props root options !! "options" = Some options.
Proof. apply lookup_insert_eq. Qed.

Lemma lookup_client_root (root : string) (options : value) :
  client_props root options !! "API_ROOT" = Some (VStr root).
Proof.
  unfold client_props. rewrite lookup_insert_ne by discriminate. apply lookup_insert_eq.
Qed.

Lemma lookup_client_other (root : string) (options : value) (k : string) :
  k <> "options" -> k <> "API_ROOT" -> client_props root options !! k = None.
Proof.
  intros Ho Hr. unfold client_props.
  rewrite lookup_insert_ne by congruence. rewrite lookup_insert_ne by congruence.
  apply lookup_empty.
Qed.

Lemma read_client_props (h : heap) (l : loc) (root : string) (options : value) :
  h !! l = Some (OPlain (client_props root options)) ->
  read_client h (VRef l) = Some (VStr root, options).
Proof.
  intros Hl. unfold read_client.
  rewrite Hl, lookup_client_root, lookup_client_options. reflexivity.
Qed.

(** C7, as the code has it: [auth(null)] throws an ApiError at once.
    On a client whose options are a configuration (an object whose
    headers and query, when present, are mappings), for any other token
    that is a string (the documented type) or another primitive whose
    string form is exact, [auth] returns a client that is a new object
    with a new configuration object; that configuration has the header
    Authorization "Token <token>" and mode "cors", and otherwise the
    headers, query and remaining keys of the original configuration.
    The heap only grows: the original client and its configuration read
    as before. *)
Theorem auth_new_client :
  (forall (this : value) (h : heap),
     auth this PNull h =
       (Throw (VRef (length h)),
        h ++ [OError "ApiError" "AuthToken is null. Authorized API calls cannot be send." ∅])) /\
  (forall (h : heap) (c a : loc) (root : string) (A : Configuration) (token : prim),
     h !! c = Some (OPlain (client_props root (VRef a))) ->
     read_config h (VRef a) = Some A ->
     token <> PNull ->
     printable token = true ->
     exists (d : loc) (h' : heap) (r options : value) (D : Configuration),
       auth (VRef c) token h = (Normal (VRef d), h') /\
       length h <= d /\
       read_client h' (VRef d) = Some (r, options) /\
       (exists o, options = VRef o /\ length h <= o) /\
       read_config h' options = Some D /\
       cfg_headers D !! "Authorization" = Some (VStr ("Token " +:+ to_string token)) /\
       cfg_props D !! "mode" = Some (VStr "cors") /\
       (forall k, k <> "Authorization" -> cfg_headers D !! k = cfg_headers A !! k) /\
       cfg_query D = cfg_query A /\
       (forall k, k <> "headers" -> k <> "query" -> k <> "mode" ->
                  cfg_props D !! k = cfg_props A !! k) /\
       h `prefix_of` h' /\
       h' !! c = Some (OPlain (client_props root (VRef a))) /\
       read_config h' (VRef a) = Some A).
Proof.
  split.
  - intros this h. reflexivity.
  - intros h c a root A token Hc HA Htoken _.
    pose proof (auth_run h c a _ A token Hc (lookup_client_options _ _)
                  (lookup_client_other _ _ "apiUrl" ltac:(discriminate) ltac:(discriminate))
                  HA Htoken) as Hrun.
    set (B := auth_config h token) in *.
    set (h1 := h ++ auth_options h token) in *.
    eexists _, _, (VStr ""), (VRef (4 + length h)),
      (mkConfiguration (merged_props h1 A B) (cfg_headers B ∪ cfg_headers A)
                       (cfg_query B ∪ cfg_query A)).
    split; [exact Hrun|].
    assert (Hlen : length h1 = 2 + length h) by (unfold h1; rewrite length_alloc; reflexivity).
    split; [cbn; lia|].
    split; [apply read_client_props; unfold h1, auth_options; heap_lookup|].
    split; [exists (4 + length h); split; [reflexivity | lia]|].
    split.
    { apply read_config_intro.
      - unfold h1, auth_options. heap_lookup.
      - rewrite (field_lookup _ "headers" (VRef (length h1))).
        + apply mapping_of_ref. rewrite Hlen. unfold h1, auth_options. heap_lookup.
        + unfold merged_props. rewrite lookup_insert_ne by discriminate.
          apply lookup_insert_eq.
      - rewrite (field_lookup _ "query" (VRef (1 + length h1))).
        + apply mapping_of_ref. rewrite Hlen. unfold h1, auth_options. heap_lookup.
        + apply lookup_insert_eq. }
    cbn [cfg_headers cfg_query cfg_props].
    split; [rewrite union_lookup_right_biased; unfold B, auth_config; cbn [cfg_headers];
            rewrite lookup_singleton_eq; reflexivity|].
    split.
    { unfold merged_props. rewrite !lookup_insert_ne by discriminate.
      rewrite union_lookup_right_biased. unfold B, auth_config; cbn [cfg_props].
      rewrite lookup_insert_eq. reflexivity. }
    split.
    { intros k Hk. rewrite union_lookup_right_biased. unfold B, auth_config; cbn [cfg_headers].
      rewrite lookup_singleton_ne by congruence. reflexivity. }
    split; [unfold B, auth_config; cbn [cfg_query]; apply map_empty_union|].
    split.
    { intros k Hh Hq Hm. unfold merged_props.
      rewrite !lookup_insert_ne by congruence.
      rewrite union_lookup_right_biased. unfold B, auth_config; cbn [cfg_props].
      rewrite lookup_insert_ne by congruence. rewrite lookup_singleton_ne by congruence.
      reflexivity. }
    split; [apply prefix_app_r; reflexivity|].
    split; [apply lookup_app_l_Some; exact Hc|].
    apply read_config_extend. exact HA.
Qed.

Lemma auth_new_client_witness :
  exists (d : loc) (h' : heap) (r options : value) (D : Configuration),
    auth (VRef 0) (PStr "abc") headers_test_heap = (Normal (VRef d), h') /\
    read_client h' (VRef d) = Some (r, options) /\
    read_config h' options = Some D /\
    cfg_headers D !! "Authorization" = Some (VStr "Token abc") /\
    cfg_props D !! "mode" = Some (VStr "cors") /\
    h' !! 0 = Some (OPlain (client_props "http://example.com" (VRef 1))).
Proof.
  destruct (proj2 auth_new_client headers_test_heap 0 1 "http://example.com"
              headers_test_base (PStr "abc"))
    as (d & h' & r & options & D & Hrun & _ & Hclient & _ & Hconfig & Hauth & Hmode & _ & _ & _
        & _ & Hsame & _);
    [vm_compute; reflexivity | vm_compute; reflexivity | discriminate | reflexivity |].
  exists d, h', r, options, D. repeat split; assumption.
Defined.

(** C7 as the specification words it fails: [auth] does not return a
    client on every client. The constructor stores whatever options it
    is given, [null] included, and on such a client [auth] throws the
    TypeError of reading [headers] from [null]. *)
Lemma auth_not_on_every_client :
  ~ (forall (h0 h : heap) (root : string) (options : value) (c : loc) (token : prim),
       new_Api (VStr root) options h0 = (Normal (VRef c), h) ->
       token <> PNull ->
       exists (d : loc) (h' : heap), auth (VRef c) token h = (Normal (VRef d), h')).
Proof.
  intros Hclaim.
  destruct (Hclaim [] null_options_heap "http://example.com" VNull 0 (PStr "abc"))
    as (d & h' & Hrun); [vm_compute; reflexivity | discriminate |].
  vm_compute in Hrun. discriminate Hrun.
Qed.

Section Resolve.

Variable Url_resolve : string -> string -> string.

Lemma buildFullUrl_absolute (this : value) (url : string) (h : heap) :
  contains "http://" url || contains "www" url = true ->
  buildFullUrl Url_resolve this url h = (Normal url, h).
Proof. intros Htest. unfold buildFullUrl. rewrite Htest. reflexivity. Qed.

Lemma buildFullUrl_relative (h : heap) (l : loc) (root : string) (options : value)
      (url : string) :
  h !! l = Some (OPlain (client_props root options)) ->
  contains "http://" url = false ->
  contains "www" url = false ->
  buildFullUrl Url_resolve (VRef l) url h = (Normal (Url_resolve root url), h).
Proof.
  intros Hl Hhttp Hwww. unfold buildFullUrl. rewrite Hhttp, Hwww. cbn [orb].
  js_get. rewrite (field_lookup _ _ _ (lookup_client_root root options)). reflexivity.
Qed.


End Resolve.


(** ** Building the request URL *)

Example sample_heap_constructed :
  new_Api (VStr "http://example.com") VUndefined [] = (Normal (VRef 0), sample_heap).
Proof. vm_compute. reflexivity. Qed.

Lemma append_longer (s t : string) (c : ascii) : s +:+ String c t <> s.
Proof.
  induction s as [|d s IH]; [discriminate|].
  rewrite append_cons. intros [= H]. exact (IH H).
Qed.

Section Query.

Variable queryString_stringify : heap -> value -> string.

Lemma fetch_url_run (h : heap) (c a b : loc) cp (A B : Configuration) (url : string) :
  h !! c = Some (OPlain cp) ->
  cp !! "options" = Some (VRef a) ->
  read_config h (VRef a) = Some A ->
  read_config h (VRef b) = Some B ->
  let h' := h ++ [OPlain (cfg_headers B ∪ cfg_headers A);
                  OPlain (cfg_query B ∪ cfg_query A);
                  OPlain (merged_props h A B)] in
  fetch_url queryString_stringify (VRef c) url (VRef b) h =
    (Normal (VRef (2 + length h),
             url +:+ "?" +:+ queryString_stringify h' (VRef (1 + length h))), h').
Proof.
  intros Hc Hcp HA HB h'. unfold fetch_url.
  js_do. js_step ltac:(apply (mergeOptions_run h c a b cp A B); assumption).
  js_get. rewrite (field_lookup _ "query" (VRef (1 + length h))) by apply lookup_insert_eq.
  cbn [truthy]. js_do. reflexivity.
Qed.

(** X18: whenever a dispatch builds its request, the URL it hands on
    is the caller's URL followed by [?] and the serialized merged query,
    whatever that query holds, and so never the caller's URL itself. *)
Lemma fetch_url_always_appends (h : heap) (c a b : loc) cp (A B : Configuration)
      (url : string) :
  h !! c = Some (OPlain cp) ->
  cp !! "options" = Some (VRef a) ->
  read_config h (VRef a) = Some A ->
  read_config h (VRef b) = Some B ->
  exists (m : value) (q : loc) (h' : heap) (sent : string),
    fetch_url queryString_stringify (VRef c) url (VRef b) h = (Normal (m, sent), h') /\
    h' !! q = Some (OPlain (cfg_query B ∪ cfg_query A)) /\
    sent = url +:+ "?" +:+ queryString_stringify h' (VRef q) /\
    sent <> url.
Proof.
  intros Hc Hcp HA HB.
  pose proof (fetch_url_run h c a b cp A B url Hc Hcp HA HB) as Hrun. cbv zeta in Hrun.
  eexists _, (1 + length h), _, _. split; [exact Hrun|].
  split; [heap_lookup|]. split; [reflexivity|]. apply append_longer.
Qed.

(** C3 at [new Api('http://example.com').fetch('/sample')]: no query
    was given on either side, the merged query is the empty object at
    location 4, and still the URL handed on is [/sample?] followed by
    what the codec makes of the empty object. *)
Theorem fetch_url_sample_appends :
  fetch_url queryString_stringify (VRef 0) "/sample" VUndefined sample_heap =
    (Normal (VRef 5, "/sample?" +:+ queryString_stringify sample_request_heap (VRef 4)),
     sample_request_heap) /\
  sample_request_heap !! 4 = Some (OPlain ∅) /\
  "/sample?" +:+ queryString_stringify sample_request_heap (VRef 4) <> "/sample".
Proof.
  split; [vm_compute; reflexivity|]. split; [vm_compute; reflexivity|].
  apply (append_longer "/sample").
Qed.

End Query.

Lemma fetch_url_always_appends_witness :
  exists (m : value) (q : loc) (h' : heap) (sent : string),
    fetch_url stub_stringify (VRef 0) "/sample" (VRef 3) headers_test_heap =
      (Normal (m, sent), h') /\
    h' !! q = Some (OPlain ∅) /\
    sent = "/sample" +:+ "?" +:+ stub_stringify h' (VRef q) /\
    sent <> "/sample".
Proof.
  destruct (fetch_url_always_appends stub_stringify headers_test_heap 0 1 3
              (client_props "http://example.com" (VRef 1))
              headers_test_base headers_test_override "/sample")
    as (m & q & h' & sent & Hrun & Hq & Hsent & Hne); [vm_compute; reflexivity ..|].
  exists m, q, h', sent. split; [exact Hrun|]. split; [|split; assumption].
  rewrite Hq. vm_compute. reflexivity.
Defined.

Section Heuristic.

Variable Url_resolve : string -> string -> string.

(** C4 at ["/search?site=www.example.com"], a relative path whose
    query mentions a host: it starts with neither [http://] nor [www],
    yet [buildFullUrl] returns it as it is and never consults the root
    or the resolver. *)
Theorem buildFullUrl_marker_inside (this : value) (h : heap) :
  starts_with "http://" "/search?site=www.example.com" = false /\
  starts_with "www" "/search?site=www.example.com" = false /\
  buildFullUrl Url_resolve this "/search?site=www.example.com" h =
    (Normal "/search?site=www.example.com", h).
Proof. repeat split. Qed.

End Heuristic.

(** ** Decoding a response *)

Lemma transformer_name_cases (contentType : value) :
  transformerFromContentType contentType = "json" \/
  transformerFromContentType contentType = "text" \/
  transformerFromContentType contentType = "raw".
Proof.
  unfold transformerFromContentType.
  destruct contentType as [[| | | |s]|l]; auto.
  destruct (contains "json" s); auto. destruct (contains "text/" s); auto.
Qed.

Lemma as_response_run (h : heap) (l : loc) (r : Response) :
  h !! l = Some (OResponse r) -> as_response (VRef l) h = (Normal r, h).
Proof. intros Hl. unfold as_response. rewrite Hl. reflexivity. Qed.

Lemma get_prop_decoder (h : heap) (l : loc) (r : Response) :
  h !! l = Some (OResponse r) ->
  get_prop (VRef l) (decoder_name r) h = (Normal (field (members r) (decoder_name r)), h).
Proof.
  intros Hl. unfold get_prop. rewrite Hl. unfold decoder_name.
  destruct (transformer_name_cases (headers_get r "Content-Type")) as [-> | [-> | ->]];
    reflexivity.
Qed.

Lemma transformer_run (h : heap) (this : value) (l f : loc) (r : Response)
      (result : completion value) :
  h !! l = Some (OResponse r) ->
  field (members r) (decoder_name r) = VRef f ->
  h !! f = Some (OFunction result) ->
  transformer this (VRef l) h = (Normal (VRef (length h)), h ++ [OFunction result]).
Proof.
  intros Hl Hf Hfun. unfold transformer.
  js_step ltac:(apply as_response_run; heap_lookup).
  fold (decoder_name r).
  js_step ltac:(apply get_prop_decoder; heap_lookup).
  js_do. rewrite Hf. unfold is_function, bind_this. rewrite Hfun. cbn [negb].
  rewrite Hfun. reflexivity.
Qed.

Lemma transformer_missing (h : heap) (this : value) (l : loc) (r : Response) :
  h !! l = Some (OResponse r) ->
  is_function h (field (members r) (decoder_name r)) = false ->
  transformer this (VRef l) h =
    (Throw (VRef (length h)),
     h ++ [OError "ApiError" ("Response has no transformer with name " +:+ decoder_name r) ∅]).
Proof.
  intros Hl Hf. unfold transformer.
  js_step ltac:(apply as_response_run; heap_lookup).
  fold (decoder_name r).
  js_step ltac:(apply get_prop_decoder; heap_lookup).
  js_do. rewrite Hf. reflexivity.
Qed.

Lemma call_function (h : heap) (f : loc) (result : completion value) :
  h !! f = Some (OFunction result) -> call (VRef f) h = (result, h).
Proof. intros Hf. unfold call. rewrite Hf. reflexivity. Qed.

(** The first two statements of [transform] when the decoder returns. *)
Lemma transform_decoded (h : heap) (this : value) (l f : loc) (r : Response) (d : value)
      (rest : value -> M value) :
  h !! l = Some (OResponse r) ->
  field (members r) (decoder_name r) = VRef f ->
  h !! f = Some (OFunction (Normal d)) ->
  (decode <- transformer this (VRef l) ;; data <- call decode ;; rest data) h =
    rest d (h ++ [OFunction (Normal d)]).
Proof.
  intros Hl Hf Hfun.
  js_step ltac:(apply (transformer_run h this l f r (Normal d)); assumption).
  js_step ltac:(apply call_function; heap_lookup).
  reflexivity.
Qed.

Lemma lookup_outcome_other (response data : value) (k : string) :
  k <> "data" -> k <> "response" -> outcome_props response data !! k = None.
Proof.
  intros Hd Hr. unfold outcome_props.
  rewrite lookup_insert_ne by congruence. apply lookup_singleton_ne. congruence.
Qed.

Lemma Promise_resolve_outcome (h : heap) (response data : value) :
  (outcome <- alloc (OPlain (outcome_props response data)) ;; Promise_resolve outcome) h =
    (Normal (VRef (1 + length h)),
     h ++ [OPlain (outcome_props response data); OPromise (Fulfilled (VRef (length h)))]).
Proof.
  js_do. unfold Promise_resolve. heap_read. unfold alloc. heap_norm.
  unfold resolution. heap_read. cbn [then_prop]. unfold field.
  rewrite lookup_outcome_other by discriminate. reflexivity.
Qed.

(** A [then] that is no function in [h] is none in any later heap. *)
Lemma not_callable_later (h : heap) (v d body : value) :
  match v with
  | VPrim _ => Some d
  | VRef f =>
      match h !! f with
      | Some (OFunction _) | None => None
      | Some _ => Some d
      end
  end = Some body ->
  body = d /\ forall t, is_function (h ++ t) v = false.
Proof.
  destruct v as [p|f]; [intros [= <-]; split; reflexivity|].
  destruct (h !! f) as [o|] eqn:Hf; [|discriminate].
  intros Hsome. unfold is_function.
  split; [destruct o; congruence|].
  intros t. rewrite (lookup_app_l_Some _ _ _ _ Hf). destruct o; (discriminate || reflexivity).
Qed.

(** A decoded body is either the immediate value itself, on which
    [typeof data.then === 'function'] is false in every later heap, or
    the fulfilment value of a promise. *)
Lemma awaited_cases (h : heap) (d body : value) :
  awaited h d = Some body ->
  (body = d /\ forall t, has_then d (h ++ t) = (Normal false, h ++ t)) \/
  (exists p, d = VRef p /\ h !! p = Some (OPromise (Fulfilled body))).
Proof.
  unfold awaited, has_then. destruct d as [p|l].
  - destruct (nullish p); [discriminate|]. intros [= <-]. left. split; reflexivity.
  - destruct (h !! l) as [o|] eqn:Hl; [|discriminate].
    destruct o as [props|cls msg props|res|s|r]; cbn [then_prop].
    4: { destruct s as [v|e|]; try discriminate. intros [= <-]. right. exists l. auto. }
    3: { intros [= <-]. left. split; [reflexivity|]. intros t.
         rewrite (lookup_app_l_Some _ _ _ _ Hl). reflexivity. }
    all: intros [-> Hnot]%not_callable_later; left; split; [reflexivity|]; intros t;
      rewrite (lookup_app_l_Some _ _ _ _ Hl); cbn [then_prop]; rewrite Hnot; reflexivity.
Qed.

Lemma reject_with_data (h : heap) (e : loc) cls msg props (data : value) :
  h !! e = Some (OError cls msg props) ->
  (set_prop (VRef e) "data" data ;;; Promise_reject (VRef e)) h =
    (Normal (VRef (length h)),
     <[e := OError cls msg (<["data" := data]> props)]> h ++ [OPromise (Rejected (VRef e))]).
Proof.
  intros He. eapply run_bind; [apply set_prop_error; exact He|].
  unfold Promise_reject, alloc. cbv beta. rewrite length_insert. reflexivity.
Qed.

Lemma transform_immediate (h : heap) (this : value) (l f : loc) (r : Response) (d : value) :
  h !! l = Some (OResponse r) ->
  field (members r) (decoder_name r) = VRef f ->
  h !! f = Some (OFunction (Normal d)) ->
  (forall t, has_then d (h ++ t) = (Normal false, h ++ t)) ->
  transform this (VRef l) h =
    (Normal (VRef (2 + length h)),
     h ++ [OFunction (Normal d);
           if ok r then OPlain (outcome_props (VRef l) d)
           else OError "ApiError" (ok_status_message r) (outcome_props (VRef l) d);
           OPromise (if ok r then Fulfilled (VRef (1 + length h))
                     else Rejected (VRef (1 + length h)))]).
Proof.
  intros Hl Hf Hfun Hthen. unfold transform.
  etrans; [apply (transform_decoded h this l f r d); assumption|].
  js_step ltac:(apply as_response_run; heap_lookup).
  destruct (ok r); cbn [negb].
  - js_step ltac:(apply Hthen).
    etrans; [apply (Promise_resolve_outcome _ (VRef l) d)|]. heap_norm. reflexivity.
  - js_do. js_set. js_step ltac:(apply Hthen). js_set.
    rewrite insert_empty. unfold Promise_reject, alloc. heap_norm. reflexivity.
Qed.

Lemma transform_fulfilled (h : heap) (this : value) (l f p : loc) (r : Response)
      (body : value) :
  h !! l = Some (OResponse r) ->
  field (members r) (decoder_name r) = VRef f ->
  h !! f = Some (OFunction (Normal (VRef p))) ->
  h !! p = Some (OPromise (Fulfilled body)) ->
  transform this (VRef l) h =
    (Normal (VRef (3 + length h)),
     h ++ [OFunction (Normal (VRef p));
           if ok r then OPlain (outcome_props (VRef l) body)
           else OError "ApiError" (ok_status_message r) (outcome_props (VRef l) body);
           OPromise (if ok r then Fulfilled (VRef (1 + length h))
                     else Rejected (VRef (1 + length h)));
           OPromise (if ok r then Fulfilled (VRef (1 + length h))
                     else Rejected (VRef (1 + length h)))]).
Proof.
  intros Hl Hf Hfun Hp. unfold transform.
  etrans; [apply (transform_decoded h this l f r (VRef p)); assumption|].
  js_step ltac:(apply as_response_run; heap_lookup).
  assert (Hthen : forall t, has_then (VRef p) (h ++ t) = (Normal true, h ++ t)).
  { intros t. unfold has_then. rewrite (lookup_app_l_Some _ _ _ _ Hp). reflexivity. }
  destruct (ok r); cbn [negb].
  - js_step ltac:(apply Hthen).
    unfold call_then. rewrite (lookup_app_l_Some _ _ _ _ Hp).
    change (alloc (OPlain (<["data" := body]> {[ "response" := VRef l ]})))
      with (alloc (OPlain (outcome_props (VRef l) body))).
    rewrite (Promise_resolve_outcome _ (VRef l) body).
    heap_norm. unfold alloc, resolution. heap_read. heap_norm. reflexivity.
  - js_do. js_set. js_step ltac:(apply Hthen).
    unfold call_then. rewrite (lookup_app_l_Some _ _ _ _ Hp).
    erewrite reject_with_data by heap_lookup.
    heap_norm. unfold alloc. heap_norm. unfold resolution. heap_read. heap_norm.
    rewrite insert_empty. reflexivity.
Qed.

(** A decoder promise that rejects: the rejection is what [transform]
    delivers, whatever the status. *)
Lemma transform_decode_rejected (h : heap) (this : value) (l f p : loc) (r : Response)
      (e : value) :
  h !! l = Some (OResponse r) ->
  field (members r) (decoder_name r) = VRef f ->
  h !! f = Some (OFunction (Normal (VRef p))) ->
  h !! p = Some (OPromise (Rejected e)) ->
  exists (q : loc) (h' : heap),
    transform this (VRef l) h = (Normal (VRef q), h') /\
    h' !! q = Some (OPromise (Rejected e)).
Proof.
  intros Hl Hf Hfun Hp. unfold transform.
  assert (Hthen : forall t, has_then (VRef p) (h ++ t) = (Normal true, h ++ t)).
  { intros t. unfold has_then. rewrite (lookup_app_l_Some _ _ _ _ Hp). reflexivity. }
  destruct (ok r) eqn:Hok.
  - eexists _, _. split.
    + etrans; [apply (transform_decoded h this l f r (VRef p)); assumption|].
      js_step ltac:(apply as_response_run; heap_lookup). rewrite Hok. cbn [negb].
      js_step ltac:(apply Hthen).
      unfold call_then. rewrite (lookup_app_l_Some _ _ _ _ Hp).
      unfold alloc. heap_norm. reflexivity.
    + heap_lookup.
  - eexists _, _. split.
    + etrans; [apply (transform_decoded h this l f r (VRef p)); assumption|].
      js_step ltac:(apply as_response_run; heap_lookup). rewrite Hok. cbn [negb].
      js_do. js_set. js_step ltac:(apply Hthen).
      unfold call_then. rewrite (lookup_app_l_Some _ _ _ _ Hp).
      unfold alloc. heap_norm. reflexivity.
    + heap_lookup.
Qed.

(** C1, as the code has it. When the selected decoder returns a
    decoded body, that is a value returned at once or a promise that
    fulfils with the body, [transform] returns a promise: for an ok
    response it is fulfilled with a new object [{response, data}] whose
    data is the body; otherwise it is rejected with an ApiError whose
    message is "Response has no ok-status (<status> - <statusText>)"
    (the status being a safe integer, printed by its digits), whose
    response is the response and whose data is the body. When the
    decoder returns a promise that rejects, the promise of [transform]
    rejects with that same value, whatever the status. Nothing is said
    here of a body returned at once that is [null] or [undefined]. *)
Theorem transform_outcome (h : heap) (this : value) (l f : loc) (r : Response)
        (d : value) :
  h !! l = Some (OResponse r) ->
  field (members r) (decoder_name r) = VRef f ->
  h !! f = Some (OFunction (Normal d)) ->
  safe_integer (status r) = true ->
  (forall body : value,
     awaited h d = Some body ->
     exists (p : loc) (h' : heap),
       transform this (VRef l) h = (Normal (VRef p), h') /\
       h `prefix_of` h' /\
       if ok r then
         exists o, h' !! p = Some (OPromise (Fulfilled (VRef o))) /\
                   h' !! o = Some (OPlain (<["data" := body]> {[ "response" := VRef l ]}))
       else
         exists e, h' !! p = Some (OPromise (Rejected (VRef e))) /\
                   h' !! e = Some (OError "ApiError"
                                     ("Response has no ok-status (" +:+ pretty (status r) +:+
                                      " - " +:+ statusText r +:+ ")")
                                     (<["data" := body]> {[ "response" := VRef l ]}))) /\
  (forall (q : loc) (e : value),
     d = VRef q ->
     h !! q = Some (OPromise (Rejected e)) ->
     exists (p : loc) (h' : heap),
       transform this (VRef l) h = (Normal (VRef p), h') /\
       h' !! p = Some (OPromise (Rejected e))).
Proof.
  intros Hl Hf Hfun _. split.
  - intros body Hbody.
    destruct (awaited_cases h d body Hbody) as [[-> Hthen] | (p & -> & Hp)].
    + eexists _, _. split; [apply (transform_immediate h this l f r d); assumption|].
      split; [apply prefix_app_r; reflexivity|].
      destruct (ok r); exists (1 + length h); split; heap_lookup.
    + eexists _, _. split; [apply (transform_fulfilled h this l f p r body); assumption|].
      split; [apply prefix_app_r; reflexivity|].
      destruct (ok r); exists (1 + length h); split; heap_lookup.
  - intros q e -> Hq. apply (transform_decode_rejected h this l f q r e); assumption.
Qed.

Lemma transform_outcome_witness :
  (exists (p e : loc) (h' : heap),
     transform VUndefined (VRef 1) not_found_heap = (Normal (VRef p), h') /\
     h' !! p = Some (OPromise (Rejected (VRef e))) /\
     h' !! e = Some (OError "ApiError" "Response has no ok-status (404 - Not Found)"
                       (<["data" := VStr "data"]> {[ "response" := VRef 1 ]}))) /\
  (exists (p o : loc) (h' : heap),
     transform VUndefined (VRef 2) json_heap = (Normal (VRef p), h') /\
     h' !! p = Some (OPromise (Fulfilled (VRef o))) /\
     h' !! o = Some (OPlain (<["data" := VStr "data"]> {[ "response" := VRef 2 ]}))) /\
  (exists (p : loc) (h' : heap),
     transform VUndefined (VRef 2) broken_json_heap = (Normal (VRef p), h') /\
     h' !! p = Some (OPromise (Rejected (VStr "Unexpected token")))).
Proof.
  split; [|split].
  - destruct (transform_outcome not_found_heap VUndefined 1 0
                (test_response false 404 "Not Found") (VStr "data"))
      as [Hbody _]; [vm_compute; reflexivity ..|].
    destruct (Hbody (VStr "data")) as (p & h' & Hrun & _ & e & Hp & He);
      [vm_compute; reflexivity|].
    exists p, e, h'. repeat split; assumption.
  - destruct (transform_outcome json_heap VUndefined 2 1 json_response (VRef 0))
      as [Hbody _]; [vm_compute; reflexivity ..|].
    destruct (Hbody (VStr "data")) as (p & h' & Hrun & _ & o & Hp & Ho);
      [vm_compute; reflexivity|].
    exists p, o, h'. repeat split; assumption.
  - destruct (transform_outcome broken_json_heap VUndefined 2 1 broken_json_response (VRef 0))
      as [_ Hrejected]; [vm_compute; reflexivity ..|].
    apply (Hrejected 0 (VStr "Unexpected token")); vm_compute; reflexivity.
Defined.

(** C1 as the specification words it fails: a response that is not ok
    is not always answered with the ok-status error. When the body of a
    404 cannot be decoded, the promise [json] returned rejects, and
    that rejection is what [transform] delivers, not an ApiError. *)
Lemma transform_decode_failure_first :
  ~ (forall (h : heap) (this : value) (l f : loc) (r : Response) (d : value),
       h !! l = Some (OResponse r) ->
       field (members r) (decoder_name r) = VRef f ->
       h !! f = Some (OFunction (Normal d)) ->
       ok r = false ->
       exists (p e : loc) (h' : heap) (props : gmap string value),
         transform this (VRef l) h = (Normal (VRef p), h') /\
         h' !! p = Some (OPromise (Rejected (VRef e))) /\
         h' !! e = Some (OError "ApiError"
                           ("Response has no ok-status (" +:+ pretty (status r) +:+
                            " - " +:+ statusText r +:+ ")") props)).
Proof.
  intros Hclaim.
  destruct (Hclaim broken_json_heap VUndefined 2 1 broken_json_response (VRef 0))
    as (p & e & h' & props & Hrun & Hp & _); [vm_compute; reflexivity ..|].
  vm_compute in Hrun. injection Hrun as <- <-. vm_compute in Hp. discriminate Hp.
Qed.

(** Nor does every response whose decoder returns get a promise back:
    on a body that is [null] at once [transform] throws, where a promise
    fulfilling with [null] has it delivered as data. *)
Lemma transform_not_total :
  ~ (forall (h : heap) (this : value) (l f : loc) (r : Response) (d : value),
       h !! l = Some (OResponse r) ->
       field (members r) (decoder_name r) = VRef f ->
       h !! f = Some (OFunction (Normal d)) ->
       exists (p : loc) (s : settlement) (h' : heap),
         transform this (VRef l) h = (Normal (VRef p), h') /\
         h' !! p = Some (OPromise s)).
Proof.
  intros Hclaim.
  destruct (Hclaim null_body_heap VUndefined 1 0 (test_response true 200 "OK") VNull)
    as (p & s & h' & Hrun & _); [vm_compute; reflexivity ..|].
  vm_compute in Hrun. discriminate Hrun.
Qed.

(** C10: when the selected decoder returns [null] or [undefined] at
    once, [transform] throws the TypeError of reading [then] from that
    value and so returns no promise, whether the response is ok or not;
    hence whenever [transform] does return on an immediate primitive
    body, that body is neither [null] nor [undefined]. *)
Theorem transform_nullish_body (h : heap) (this : value) (l f : loc) (r : Response)
        (p : prim) :
  h !! l = Some (OResponse r) ->
  field (members r) (decoder_name r) = VRef f ->
  h !! f = Some (OFunction (Normal (VPrim p))) ->
  (nullish p = true ->
   exists (e : loc) (h' : heap),
     transform this (VRef l) h = (Throw (VRef e), h') /\
     h' !! e = Some (OError "TypeError"
                       ("Cannot read property 'then' of " +:+ to_string p) ∅)) /\
  (forall (v : value) (h' : heap),
     transform this (VRef l) h = (Normal v, h') -> nullish p = false).
Proof.
  intros Hl Hf Hfun.
  assert (Hthrow : nullish p = true ->
            exists (e : loc) (h' : heap),
              transform this (VRef l) h = (Throw (VRef e), h') /\
              h' !! e = Some (OError "TypeError"
                                ("Cannot read property 'then' of " +:+ to_string p) ∅)).
  { intros Hnull. unfold transform. destruct (ok r) eqn:Hok.
    - eexists _, _. split.
      + etrans; [apply (transform_decoded h this l f r (VPrim p)); assumption|].
        js_step ltac:(apply as_response_run; heap_lookup). rewrite Hok. cbn [negb].
        apply run_bind_throw. unfold has_then. rewrite Hnull.
        unfold throw_no_property, throw_new. js_do. unfold throw. reflexivity.
      + heap_lookup.
    - eexists _, _. split.
      + etrans; [apply (transform_decoded h this l f r (VPrim p)); assumption|].
        js_step ltac:(apply as_response_run; heap_lookup). rewrite Hok. cbn [negb].
        js_do. js_set.
        apply run_bind_throw. unfold has_then. rewrite Hnull.
        unfold throw_no_property, throw_new. js_do. unfold throw. reflexivity.
      + heap_lookup. }
  split; [exact Hthrow|].
  intros v h' Hrun. destruct (nullish p); [|reflexivity].
  destruct (Hthrow eq_refl) as (e & h'' & Hrun' & _). congruence.
Qed.

Lemma transform_nullish_body_witness :
  exists (e : loc) (h' : heap),
    transform VUndefined (VRef 1) null_body_heap = (Throw (VRef e), h') /\
    h' !! e = Some (OError "TypeError" "Cannot read property 'then' of null" ∅).
Proof.
  apply (transform_nullish_body null_body_heap VUndefined 1 0
           (test_response true 200 "OK") PNull); vm_compute; reflexivity.
Defined.

Lemma transform_missing (h : heap) (this : value) (l : loc) (r : Response) :
  h !! l = Some (OResponse r) ->
  is_function h (field (members r) (decoder_name r)) = false ->
  transform this (VRef l) h =
    (Throw (VRef (length h)),
     h ++ [OError "ApiError" ("Response has no transformer with name " +:+ decoder_name r) ∅]).
Proof.
  intros Hl Hf. unfold transform. apply run_bind_throw.
  apply transformer_missing; assumption.
Qed.

Section Dispatch.

Variable Url_resolve : string -> string -> string.
Variable queryString_stringify : heap -> value -> string.
Variable global_fetch : string -> value -> M value.

(** C5, as the code has it: for a response without a function under the
    selected name, [transform] itself throws the ApiError "Response has
    no transformer with name <name>" and allocates nothing but that
    error, so no other decoder is tried; in a dispatch, where
    [transform] is the [then] callback on the transport's promise, the
    throw becomes the rejection of the promise [fetch] returns. *)
Theorem missing_decoder_surfaces (this : value) (l : loc) (r : Response) :
  (forall h : heap,
     h !! l = Some (OResponse r) ->
     is_function h (field (members r) (decoder_name r)) = false ->
     transform this (VRef l) h =
       (Throw (VRef (length h)),
        h ++ [OError "ApiError"
                ("Response has no transformer with name " +:+ decoder_name r) ∅])) /\
  (forall (h h1 h2 h3 : heap) (url fullUrl : string) (options : value)
          (request : value * string) (answer : loc),
     fetch_url queryString_stringify this url options h = (Normal request, h1) ->
     buildFullUrl Url_resolve this (snd request) h1 = (Normal fullUrl, h2) ->
     global_fetch fullUrl (fst request) h2 = (Normal (VRef answer), h3) ->
     h3 !! answer = Some (OPromise (Fulfilled (VRef l))) ->
     h3 !! l = Some (OResponse r) ->
     is_function h3 (field (members r) (decoder_name r)) = false ->
     fetch Url_resolve queryString_stringify global_fetch this url options h =
       (Normal (VRef (1 + length h3)),
        h3 ++ [OError "ApiError"
                 ("Response has no transformer with name " +:+ decoder_name r) ∅;
               OPromise (Rejected (VRef (length h3)))])).
Proof.
  split.
  - intros h Hl Hf. apply transform_missing; assumption.
  - intros h h1 h2 h3 url fullUrl options request answer Hreq Hurl Hfetch Hanswer Hl Hf.
    unfold fetch.
    eapply run_bind; [exact Hreq|]. eapply run_bind; [exact Hurl|].
    eapply run_bind; [exact Hfetch|].
    unfold call_then. rewrite Hanswer.
    rewrite (transform_missing h3 this l r Hl Hf).
    unfold alloc. heap_norm. reflexivity.
Qed.

End Dispatch.

(** C5 as the specification words it fails: [transform] does not
    return a rejected promise for a response without its decoder. *)
Lemma transform_missing_decoder_throws :
  ~ (forall (h : heap) (this : value) (l : loc) (r : Response),
       h !! l = Some (OResponse r) ->
       is_function h (field (members r) (decoder_name r)) = false ->
       exists (p : loc) (e : value) (h' : heap),
         transform this (VRef l) h = (Normal (VRef p), h') /\
         h' !! p = Some (OPromise (Rejected e))).
Proof.
  intros Hclaim.
  destruct (Hclaim no_decoder_heap VUndefined 0 bare_response)
    as (p & e & h' & Hrun & _); [vm_compute; reflexivity ..|].
  vm_compute in Hrun. discriminate Hrun.
Qed.

Lemma missing_decoder_surfaces_witness :
  exists (p e : loc) (h' : heap),
    fetch String.append stub_stringify (stub_transport bare_response)
          (VRef 0) "/sample" VUndefined sample_heap = (Normal (VRef p), h') /\
    h' !! p = Some (OPromise (Rejected (VRef e))) /\
    h' !! e = Some (OError "ApiError" "Response has no transformer with name raw" ∅).
Proof.
  eexists _, _, _. split.
  - eapply (proj2 (missing_decoder_surfaces String.append stub_stringify
                     (stub_transport bare_response) (VRef 0) 6 bare_response)
                  sample_heap _ _ _ "/sample" _ VUndefined _ 7);
      vm_compute; reflexivity.
  - split; vm_compute; reflexivity.
Defined.

(** ** JSON requests *)

Lemma json_unescape_escape (c : ascii) (rest : string) :
  json_unescape (json_escape c +:+ rest) = option_map (String c) (json_unescape rest).
Proof. destruct c as [[] [] [] [] [] [] [] []]; reflexivity. Qed.

(** The inside of the literal the encoder writes for [s] reads back as
    [s]. *)
Lemma json_escape_round_trip (s : string) : json_unescape (json_escape_string s) = Some s.
Proof.
  induction s as [|c s IH]; [reflexivity|].
  cbn [json_escape_string]. rewrite json_unescape_escape, IH. reflexivity.
Qed.

Section Json.

Variable Url_resolve : string -> string -> string.
Variable queryString_stringify : heap -> value -> string.
Variable JSON_stringify_object : heap -> loc -> completion value.
Variable global_fetch : string -> value -> M value.

Lemma fetchWithJSON_unfold (this : value) (url : string) (json options : value) :
  json <> VUndefined ->
  fetchWithJSON Url_resolve queryString_stringify JSON_stringify_object global_fetch
    this url json options =
  (h <- get_heap ;;
   headers <- alloc (OPlain json_headers) ;;
   body <- JSON_stringify JSON_stringify_object json ;;
   request <- alloc (OPlain (<["body" := body]>
                             (<["headers" := headers]> (own_props h options)))) ;;
   fetch Url_resolve queryString_stringify global_fetch this url request).
Proof. intros Hjson. destruct json as [[| | | |]|]; congruence || reflexivity. Qed.

(** [JSON.stringify] leaves the heap as it is. *)
Lemma JSON_stringify_pure (json : value) (h : heap) :
  exists r : completion value, JSON_stringify JSON_stringify_object json h = (r, h).
Proof.
  destruct json as [p|l]; [eexists; reflexivity|].
  unfold JSON_stringify. destruct (h !! l) as [[]|]; eexists; reflexivity.
Qed.

(** C9, as the code has it: with [json] undefined, [fetchWithJSON]
    throws the ApiError "No JSON object given" at once, before anything
    is dispatched. With any other [json] the check passes: the call is
    [JSON.stringify(json)] followed by the dispatch of a request whose
    headers are Accept and Content-Type [application/json] and whose
    body is what [JSON.stringify] returned; when [JSON.stringify]
    throws, that is thrown on and nothing is dispatched. The body is the
    string [null] for [null], [true] or [false] for a boolean, the
    decimal digits for a safe integer, and for a string a literal in
    quotation marks whose inside reads back as the string; for a
    function it is [undefined], not a text. *)
Theorem fetchWithJSON_payload (this : value) (url : string) (options : value) (h : heap) :
  (fetchWithJSON Url_resolve queryString_stringify JSON_stringify_object global_fetch
     this url VUndefined options h =
     (Throw (VRef (length h)), h ++ [OError "ApiError" "No JSON object given" ∅]) /\
   contains "No JSON object" "No JSON object given" = true) /\
  (forall json : value,
     json <> VUndefined ->
     (forall body : value,
        JSON_stringify JSON_stringify_object json (h ++ [OPlain json_headers]) =
          (Normal body, h ++ [OPlain json_headers]) ->
        fetchWithJSON Url_resolve queryString_stringify JSON_stringify_object global_fetch
          this url json options h =
        fetch Url_resolve queryString_stringify global_fetch this url (VRef (1 + length h))
          (h ++ [OPlain json_headers;
                 OPlain (<["body" := body]>
                         (<["headers" := VRef (length h)]> (own_props h options)))])) /\
     (forall e : value,
        JSON_stringify JSON_stringify_object json (h ++ [OPlain json_headers]) =
          (Throw e, h ++ [OPlain json_headers]) ->
        fetchWithJSON Url_resolve queryString_stringify JSON_stringify_object global_fetch
          this url json options h = (Throw e, h ++ [OPlain json_headers])) /\
     (exists r : completion value,
        JSON_stringify JSON_stringify_object json (h ++ [OPlain json_headers]) =
          (r, h ++ [OPlain json_headers]))) /\
  (forall h1 : heap,
     JSON_stringify JSON_stringify_object VNull h1 = (Normal (VStr "null"), h1) /\
     (forall b : bool,
        JSON_stringify JSON_stringify_object (VBool b) h1 =
          (Normal (VStr (if b then "true" else "false")), h1)) /\
     (forall n : Z,
        safe_integer n = true ->
        JSON_stringify JSON_stringify_object (VNum n) h1 = (Normal (VStr (pretty n)), h1)) /\
     (forall s : string,
        exists t : string,
          JSON_stringify JSON_stringify_object (VStr s) h1 =
            (Normal (VStr (String quote (t +:+ String quote EmptyString))), h1) /\
          json_unescape t = Some s) /\
     (forall (l : loc) (result : completion value),
        h1 !! l = Some (OFunction result) ->
        JSON_stringify JSON_stringify_object (VRef l) h1 = (Normal VUndefined, h1))) /\
  fetchWithJSON Url_resolve queryString_stringify JSON_stringify_object global_fetch
    this url VNull options h =
  fetch Url_resolve queryString_stringify global_fetch this url (VRef (1 + length h))
    (h ++ [OPlain json_headers;
           OPlain (<["body" := VStr "null"]>
                   (<["headers" := VRef (length h)]> (own_props h options)))]).
Proof.
  assert (Hcall : forall json body : value,
     json <> VUndefined ->
     JSON_stringify JSON_stringify_object json (h ++ [OPlain json_headers]) =
       (Normal body, h ++ [OPlain json_headers]) ->
     fetchWithJSON Url_resolve queryString_stringify JSON_stringify_object global_fetch
       this url json options h =
     fetch Url_resolve queryString_stringify global_fetch this url (VRef (1 + length h))
       (h ++ [OPlain json_headers;
              OPlain (<["body" := body]>
                      (<["headers" := VRef (length h)]> (own_props h options)))])).
  { intros json body Hjson Hbody. rewrite fetchWithJSON_unfold by exact Hjson.
    js_do. js_do. eapply run_bind; [exact Hbody|]. js_do. reflexivity. }
  split; [split; reflexivity|].
  split; [|split].
  - intros json Hjson. split; [|split].
    + intros body. apply Hcall. exact Hjson.
    + intros e Hthrow. rewrite fetchWithJSON_unfold by exact Hjson.
      js_do. js_do. apply run_bind_throw. exact Hthrow.
    + apply JSON_stringify_pure.
  - intros h1. split; [reflexivity|]. split; [intros []; reflexivity|].
    split; [intros n _; reflexivity|]. split.
    + intros s. exists (json_escape_string s). split; [reflexivity|].
      apply json_escape_round_trip.
    + intros l result Hl. unfold JSON_stringify. rewrite Hl. reflexivity.
  - apply Hcall; [discriminate | reflexivity].
Qed.

End Json.

Lemma stub_transport_returns_promise (r : Response) : returns_promise (stub_transport r).
Proof.
  intros url options h.
  exists (1 + length h), (Fulfilled (VRef (length h))),
    (h ++ [OResponse r; OPromise (Fulfilled (VRef (length h)))]).
  split; [|heap_lookup].
  unfold stub_transport. js_do. unfold alloc. heap_norm. reflexivity.
Qed.

Lemma fetchWithJSON_payload_witness :
  fetchWithJSON String.append stub_stringify stub_encode
    (stub_transport (test_response true 200 "OK")) (VRef 0) "/" (VNum 42) VUndefined sample_heap =
  fetch String.append stub_stringify (stub_transport (test_response true 200 "OK"))
    (VRef 0) "/" (VRef 3)
    (sample_heap ++ [OPlain json_headers;
                     OPlain (<["body" := VStr "42"]> (<["headers" := VRef 2]> ∅))]) /\
  fetchWithJSON String.append stub_stringify stub_encode
    (stub_transport (test_response true 200 "OK")) (VRef 0) "/" (VRef 2) VUndefined
    function_payload_heap =
  fetch String.append stub_stringify (stub_transport (test_response true 200 "OK"))
    (VRef 0) "/" (VRef 4)
    (function_payload_heap ++ [OPlain json_headers;
                               OPlain (<["body" := VUndefined]> (<["headers" := VRef 3]> ∅))]).
Proof.
  destruct (fetchWithJSON_payload String.append stub_stringify stub_encode
              (stub_transport (test_response true 200 "OK"))
              (VRef 0) "/" VUndefined sample_heap) as (_ & Hcall & Hencode & _).
  destruct (fetchWithJSON_payload String.append stub_stringify stub_encode
              (stub_transport (test_response true 200 "OK"))
              (VRef 0) "/" VUndefined function_payload_heap) as (_ & Hfunction & Hresult & _).
  split.
  - apply (proj1 (Hcall (VNum 42) ltac:(discriminate)) (VStr "42")).
    apply (proj1 (proj2 (proj2 (Hencode (sample_heap ++ [OPlain json_headers]))))).
    reflexivity.
  - apply (proj1 (Hfunction (VRef 2) ltac:(discriminate)) VUndefined).
    apply (proj2 (proj2 (proj2 (proj2 (Hresult (function_payload_heap ++
                                                  [OPlain json_headers])))))
             2 (Normal (VStr "result"))).
    vm_compute. reflexivity.
Defined.

(** C9 as the specification words it fails: the body is not in general
    a JSON text. For a function [JSON.stringify] returns [undefined], so
    the request dispatched has no string for its body. *)
Lemma fetchWithJSON_body_not_always_text :
  ~ (forall (h : heap) (this : value) (url : string) (json options : value),
       json <> VUndefined ->
       exists text : string,
         fetchWithJSON String.append stub_stringify stub_encode
           (stub_transport bare_response) this url json options h =
         fetch String.append stub_stringify (stub_transport bare_response) this url
           (VRef (1 + length h))
           (h ++ [OPlain json_headers;
                  OPlain (<["body" := VStr text]>
                          (<["headers" := VRef (length h)]> (own_props h options)))])).
Proof.
  intros Hclaim.
  destruct (Hclaim function_payload_heap (VRef 0) "/" (VRef 2) VUndefined) as [text Htext];
    [discriminate|].
  apply (f_equal (fun r => match snd r !! 4 with
                           | Some (OPlain props) => props !! "body"
                           | _ => None
                           end)) in Htext.
  vm_compute in Htext. discriminate Htext.
Qed.

(** ** The constructor *)

Lemma default_object_cases (options : value) :
  options = VUndefined \/ (options <> VUndefined /\ default_object options = ret options).
Proof.
  destruct options as [[]|];
    (left; reflexivity) || (right; split; [discriminate | reflexivity]).
Qed.

(** X1: the constructor accepts a root that is a string, or [undefined]
    (the root is then the empty string): it returns a new client with
    that root and the given options, where options left [undefined]
    become a new empty object and any other value, [null] included, is
    stored as it is. Every other root, [null] included, makes it throw
    the ApiError "Provide a valid api url.". *)
Theorem new_Api_validates (apiUrl options : value) (h : heap) :
  (forall root : string,
     apiUrl = VStr root \/ (apiUrl = VUndefined /\ root = "") ->
     exists (this o : value) (h' : heap),
       new_Api apiUrl options h = (Normal this, h') /\
       read_client h' this = Some (VStr root, o) /\
       (options <> VUndefined -> o = options) /\
       (options = VUndefined ->
        exists l, o = VRef l /\ length h <= l /\ h' !! l = Some (OPlain ∅))) /\
  (is_string apiUrl = false -> apiUrl <> VUndefined ->
   exists (e : loc) (h' : heap),
     new_Api apiUrl options h = (Throw (VRef e), h') /\
     h' !! e = Some (OError "ApiError" "Provide a valid api url." ∅)).
Proof.
  split.
  - intros root Hurl.
    destruct (default_object_cases options) as [-> | [Hgiven Hdefault]].
    + eexists _, _, _. split.
      { destruct Hurl as [-> | [-> ->]]; unfold new_Api; js_do; cbv beta iota zeta;
          js_do; cbn [is_string negb]; js_set; js_set; reflexivity. }
      split; [apply read_client_props; heap_lookup|].
      split; [congruence|]. intros _.
      exists (1 + length h). split; [reflexivity|]. split; [lia | heap_lookup].
    + exists (VRef (length h)), options, (h ++ [OPlain (client_props root options)]). split.
      { destruct Hurl as [-> | [-> ->]]; unfold new_Api; js_do; cbv beta iota zeta;
          rewrite Hdefault; js_do; cbn [is_string negb]; js_set; js_set; reflexivity. }
      split; [apply read_client_props; heap_lookup|].
      split; [reflexivity | congruence].
  - intros Hstring Hgiven.
    assert (Hkeep : match apiUrl with VUndefined => VStr "" | _ => apiUrl end = apiUrl)
      by (destruct apiUrl as [[]|]; congruence || reflexivity).
    destruct (default_object_cases options) as [-> | [Hoptions Hdefault]].
    + exists (2 + length h), (h ++ [OPlain ∅; OPlain ∅;
                                     OError "ApiError" "Provide a valid api url." ∅]).
      split; [|heap_lookup].
      unfold new_Api. js_do. cbv beta zeta. rewrite Hkeep, Hstring. js_do. cbn [negb].
      unfold throw_new. js_do. reflexivity.
    + exists (1 + length h), (h ++ [OPlain ∅; OError "ApiError" "Provide a valid api url." ∅]).
      split; [|heap_lookup].
      unfold new_Api. js_do. cbv beta zeta. rewrite Hkeep, Hstring, Hdefault. js_do.
      cbn [negb]. unfold throw_new. js_do. reflexivity.
Qed.

Lemma new_Api_validates_witness :
  (exists (this o : value) (h' : heap),
     new_Api VUndefined VUndefined [] = (Normal this, h') /\
     read_client h' this = Some (VStr "", o)) /\
  (exists (e : loc) (h' : heap),
     new_Api VNull VUndefined [] = (Throw (VRef e), h') /\
     h' !! e = Some (OError "ApiError" "Provide a valid api url." ∅)).
Proof.
  destruct (new_Api_validates VUndefined VUndefined []) as [Haccept _].
  destruct (new_Api_validates VNull VUndefined []) as [_ Hreject].
  split.
  - destruct (Haccept "") as (this & o & h' & Hrun & Hclient & _);
      [right; split; reflexivity|].
    exists this, o, h'. split; assumption.
  - apply Hreject; [reflexivity | discriminate].
Defined.

Lemma mergeOptions_null_argument (h : heap) (c a : loc) cp ap :
  h !! c = Some (OPlain cp) ->
  cp !! "options" = Some (VRef a) ->
  h !! a = Some (OPlain ap) ->
  mergeOptions (VRef c) VNull h =
    (Throw (VRef (length h)),
     h ++ [OError "TypeError" "Cannot read property 'headers' of null" ∅]).
Proof.
  intros Hc Hcp Ha. unfold mergeOptions.
  js_get. rewrite (field_lookup _ _ _ Hcp). js_get. reflexivity.
Qed.

Section NullOptions.

Variable Url_resolve : string -> string -> string.
Variable queryString_stringify : heap -> value -> string.
Variable global_fetch : string -> value -> M value.

(** X2: the default [= {}] replaces [undefined] only. A client
    constructed with [null] for its options is built without complaint,
    and every later [fetch] on it throws the TypeError of reading
    [headers] from [null], whatever options the call gives; on a
    well-formed client [fetch(url, null)] throws that TypeError too,
    and nothing is sent. *)
Theorem null_options_not_defaulted :
  (forall (root : string) (h : heap),
     exists (c : loc) (h1 : heap),
       new_Api (VStr root) VNull h = (Normal (VRef c), h1) /\
       read_client h1 (VRef c) = Some (VStr root, VNull) /\
       forall (later : list object) (url : string) (options : value),
         exists (e : loc) (h2 : heap),
           fetch Url_resolve queryString_stringify global_fetch (VRef c) url options
                 (h1 ++ later) = (Throw (VRef e), h2) /\
           h2 !! e = Some (OError "TypeError" "Cannot read property 'headers' of null" ∅)) /\
  (forall (h : heap) (c a : loc) cp ap (url : string),
     h !! c = Some (OPlain cp) ->
     cp !! "options" = Some (VRef a) ->
     h !! a = Some (OPlain ap) ->
     fetch Url_resolve queryString_stringify global_fetch (VRef c) url VNull h =
       (Throw (VRef (length h)),
        h ++ [OError "TypeError" "Cannot read property 'headers' of null" ∅])).
Proof.
  split.
  - intros root h.
    exists (length h), (h ++ [OPlain (client_props root VNull)]).
    split; [unfold new_Api; js_do; cbv beta iota zeta; js_do; cbn [is_string negb];
            js_set; js_set; reflexivity|].
    split; [apply read_client_props; heap_lookup|].
    intros later url options.
    assert (Hmerge : forall (o : value) (h2 : heap),
              h2 !! length h = Some (OPlain (client_props root VNull)) ->
              mergeOptions (VRef (length h)) o h2 =
                (Throw (VRef (length h2)),
                 h2 ++ [OError "TypeError" "Cannot read property 'headers' of null" ∅])).
    { intros o h2 Hc. unfold mergeOptions. js_get.
      rewrite (field_lookup _ _ _ (lookup_client_options root VNull)). reflexivity. }
    assert (Hc : forall t, ((h ++ [OPlain (client_props root VNull)]) ++ t) !! length h =
                           Some (OPlain (client_props root VNull))).
    { intros t. apply lookup_app_l_Some. heap_lookup. }
    unfold fetch, fetch_url.
    destruct (default_object_cases options) as [-> | [Hgiven Hdefault]].
    + eexists _, _. split.
      * apply run_bind_throw. eapply run_bind; [reflexivity|]. apply run_bind_throw.
        apply Hmerge. rewrite <- app_assoc. apply Hc.
      * apply list_lookup_middle. reflexivity.
    + eexists _, _. split.
      * apply run_bind_throw. rewrite Hdefault. eapply run_bind; [reflexivity|].
        apply run_bind_throw. apply Hmerge. apply Hc.
      * apply list_lookup_middle. reflexivity.
  - intros h c a cp ap url Hc Hcp Ha. unfold fetch, fetch_url.
    apply run_bind_throw. js_do. apply run_bind_throw.
    apply (mergeOptions_null_argument h c a cp ap); assumption.
Qed.

End NullOptions.

Lemma null_options_not_defaulted_witness :
  fetch String.append stub_stringify (stub_transport bare_response) (VRef 0) "/sample" VNull
        sample_heap =
    (Throw (VRef 2),
     sample_heap ++ [OError "TypeError" "Cannot read property 'headers' of null" ∅]).
Proof.
  apply (proj2 (null_options_not_defaulted String.append stub_stringify
                  (stub_transport bare_response))
               sample_heap 0 1 (client_props "http://example.com" (VRef 1)) ∅ "/sample");
    vm_compute; reflexivity.
Defined.

(** ** The other keys of merged options *)

(** X3: apart from [headers] and [query], a key of the merged options
    has the value the argument gives it, else the value the client's
    options give it; the result is a new object, and both inputs hold
    what they held. *)
Theorem mergeOptions_other_keys (h : heap) (c a b : loc) cp (A B : Configuration) :
  h !! c = Some (OPlain cp) ->
  cp !! "options" = Some (VRef a) ->
  read_config h (VRef a) = Some A ->
  read_config h (VRef b) = Some B ->
  exists (m : loc) (h' : heap) (props : gmap string value),
    mergeOptions (VRef c) (VRef b) h = (Normal (VRef m), h') /\
    h' !! m = Some (OPlain props) /\
    length h <= m /\
    (forall k, k <> "headers" -> k <> "query" ->
       props !! k = match cfg_props B !! k with
                    | Some v => Some v
                    | None => cfg_props A !! k
                    end) /\
    h' !! a = Some (OPlain (cfg_props A)) /\
    h' !! b = Some (OPlain (cfg_props B)).
Proof.
  intros Hc Hcp HA HB.
  pose proof (mergeOptions_run h c a b cp A B Hc Hcp HA HB) as Hrun.
  destruct (read_config_inv _ _ _ HA) as (a' & [= <-] & Ha & _).
  destruct (read_config_inv _ _ _ HB) as (b' & [= <-] & Hb & _).
  eexists _, _, _. split; [exact Hrun|].
  split; [heap_lookup|]. split; [lia|].
  split; [|split; apply lookup_app_l_Some; assumption].
  intros k Hh Hq. unfold merged_props.
  rewrite !lookup_insert_ne by congruence. apply union_lookup_right_biased.
Qed.

Lemma mergeOptions_other_keys_witness :
  exists (m : loc) (h' : heap) (props : gmap string value),
    mergeOptions (VRef 0) (VRef 2) options_test_heap = (Normal (VRef m), h') /\
    h' !! m = Some (OPlain props) /\
    props !! "method" = Some (VStr "get") /\
    props !! "auth" = Some (VNum 321) /\
    props !! "foo" = Some (VStr "bar").
Proof.
  destruct (mergeOptions_other_keys options_test_heap 0 1 2
              (client_props "http://example.com" (VRef 1))
              options_test_base options_test_override)
    as (m & h' & props & Hrun & Hm & _ & Hkeys & _);
    [vm_compute; reflexivity ..|].
  exists m, h', props. rewrite !Hkeys by discriminate.
  repeat split; [exact Hrun | exact Hm].
Defined.

(** ** Absolute and relative URLs *)

Section Occurrence.

Variable Url_resolve : string -> string -> string.

Lemma contains_https (pat rest : string) :
  pat = "http://" \/ pat = "www" ->
  contains pat ("https://" +:+ rest) = contains pat rest.
Proof.
  intros [-> | ->]; repeat rewrite append_cons;
    change ("" +:+ rest) with rest; cbn [contains]; destruct rest; reflexivity.
Qed.

(** X4: on a client with the root [root], [buildFullUrl] returns a URL
    as it is when [http://] or [www] occurs anywhere in it, and returns
    [Url.resolve(root, url)] otherwise; the heap stays as it is. So a
    URL [https://...] in which neither marker occurs is not taken for
    absolute by the test: it is handed to [Url.resolve]. *)
Theorem buildFullUrl_by_occurrence (h : heap) (c : loc) (root : string) (options : value)
        (url : string) :
  h !! c = Some (OPlain (client_props root options)) ->
  (occurs "http://" url \/ occurs "www" url ->
   buildFullUrl Url_resolve (VRef c) url h = (Normal url, h)) /\
  (~ occurs "http://" url -> ~ occurs "www" url ->
   buildFullUrl Url_resolve (VRef c) url h = (Normal (Url_resolve root url), h)) /\
  (forall rest : string,
     url = "https://" +:+ rest ->
     ~ occurs "http://" rest -> ~ occurs "www" rest ->
     buildFullUrl Url_resolve (VRef c) url h = (Normal (Url_resolve root url), h)).
Proof.
  intros Hc.
  assert (Hrelative : ~ occurs "http://" url -> ~ occurs "www" url ->
            buildFullUrl Url_resolve (VRef c) url h = (Normal (Url_resolve root url), h)).
  { intros Hhttp%contains_false_iff Hwww%contains_false_iff.
    apply (buildFullUrl_relative Url_resolve h c root options); assumption. }
  split; [|split].
  - intros Hmark. apply buildFullUrl_absolute. apply orb_true_iff.
    destruct Hmark as [H | H]; [left | right]; apply contains_occurs; exact H.
  - exact Hrelative.
  - intros rest -> Hhttp Hwww.
    apply (buildFullUrl_relative Url_resolve h c root options); [exact Hc | |].
    + rewrite contains_https by (left; reflexivity). apply contains_false_iff. exact Hhttp.
    + rewrite contains_https by (right; reflexivity). apply contains_false_iff. exact Hwww.
Qed.

End Occurrence.

Lemma buildFullUrl_by_occurrence_witness :
  buildFullUrl String.append (VRef 0) "https://another.com/sample" sample_heap =
    (Normal (String.append "http://example.com" "https://another.com/sample"), sample_heap) /\
  buildFullUrl String.append (VRef 0) "http://another.com/sample" sample_heap =
    (Normal "http://another.com/sample", sample_heap).
Proof.
  destruct (buildFullUrl_by_occurrence String.append sample_heap 0 "http://example.com"
              (VRef 1) "https://another.com/sample") as (_ & _ & Hhttps);
    [vm_compute; reflexivity|].
  destruct (buildFullUrl_by_occurrence String.append sample_heap 0 "http://example.com"
              (VRef 1) "http://another.com/sample") as (Hhttp & _);
    [vm_compute; reflexivity|].
  split.
  - apply (Hhttps "another.com/sample"); [reflexivity | |]; apply contains_false_iff;
      reflexivity.
  - apply Hhttp. left. apply contains_occurs. reflexivity.
Defined.

(** ** The requests of the verbs *)

Section Verbs.

Variable Url_resolve : string -> string -> string.
Variable queryString_stringify : heap -> value -> string.
Variable global_fetch : string -> value -> M value.

Lemma fetch_run (h : heap) (c a b : loc) cp (A B : Configuration) (url : string) :
  h !! c = Some (OPlain cp) ->
  cp !! "options" = Some (VRef a) ->
  read_config h (VRef a) = Some A ->
  read_config h (VRef b) = Some B ->
  let h' := h ++ [OPlain (cfg_headers B ∪ cfg_headers A);
                  OPlain (cfg_query B ∪ cfg_query A);
                  OPlain (merged_props h A B)] in
  fetch Url_resolve queryString_stringify global_fetch (VRef c) url (VRef b) h =
    fetch_send Url_resolve global_fetch (VRef c)
      (VRef (2 + length h), url +:+ "?" +:+ queryString_stringify h' (VRef (1 + length h))) h'.
Proof.
  intros Hc Hcp HA HB h'. unfold fetch.
  eapply run_bind; [apply (fetch_url_run queryString_stringify h c a b cp A B); assumption|].
  reflexivity.
Qed.

(** The request [{...options, method}] read as a configuration. *)
Lemma with_method_config (h : heap) (options : value) (m : string) Bh Bq :
  mapping_of h (field (own_props h options) "headers") = Some Bh ->
  mapping_of h (field (own_props h options) "query") = Some Bq ->
  read_config (h ++ [OPlain (<["method" := VStr m]> (own_props h options))])
              (VRef (length h)) =
    Some (mkConfiguration (<["method" := VStr m]> (own_props h options)) Bh Bq).
Proof.
  intros Hh Hq. apply read_config_intro.
  - heap_lookup.
  - unfold field in *. rewrite lookup_insert_ne by discriminate.
    apply mapping_of_extend. exact Hh.
  - unfold field in *. rewrite lookup_insert_ne by discriminate.
    apply mapping_of_extend. exact Hq.
Qed.

Lemma verb_run (h : heap) (c a : loc) cp (A : Configuration) (options : value) Bh Bq
      (m url : string) :
  h !! c = Some (OPlain cp) ->
  cp !! "options" = Some (VRef a) ->
  read_config h (VRef a) = Some A ->
  mapping_of h (field (own_props h options) "headers") = Some Bh ->
  mapping_of h (field (own_props h options) "query") = Some Bq ->
  let request := <["method" := VStr m]> (own_props h options) in
  let h' := h ++ [OPlain request;
                  OPlain (Bh ∪ cfg_headers A);
                  OPlain (Bq ∪ cfg_query A);
                  OPlain (merged_props (h ++ [OPlain request]) A
                            (mkConfiguration request Bh Bq))] in
  (request <- with_method options m ;;
   fetch Url_resolve queryString_stringify global_fetch (VRef c) url request) h =
    fetch_send Url_resolve global_fetch (VRef c)
      (VRef (3 + length h), url +:+ "?" +:+ queryString_stringify h' (VRef (2 + length h))) h'.
Proof.
  intros Hc Hcp HA Hh Hq request h'.
  unfold with_method. js_do.
  etrans.
  { apply (fetch_run _ c a (length h) cp A (mkConfiguration request Bh Bq)).
    - heap_lookup.
    - exact Hcp.
    - apply read_config_extend. exact HA.
    - apply with_method_config; assumption. }
  cbn [cfg_headers cfg_query]. unfold h'. heap_norm. reflexivity.
Qed.

(** X5: [get], [post] and [put] dispatch the caller's options with
    [method] set to their own name. The merged options handed to the
    transport have that method, whatever method the caller's options or
    the client's own options name; every other key apart from [headers]
    and [query] is the caller's, else the client's; the URL handed on
    ends in the serialized merged query; the heap only grows, so the
    caller's options object is left as it is. *)
Theorem verbs_force_method (h : heap) (c a : loc) cp (A : Configuration) (options : value)
        Bh Bq (url name : string) (verb : value -> string -> value -> M value) :
  h !! c = Some (OPlain cp) ->
  cp !! "options" = Some (VRef a) ->
  read_config h (VRef a) = Some A ->
  mapping_of h (field (own_props h options) "headers") = Some Bh ->
  mapping_of h (field (own_props h options) "query") = Some Bq ->
  (name, verb) ∈ verbs Url_resolve queryString_stringify global_fetch ->
  exists (m q : loc) (h' : heap) (props : gmap string value),
    verb (VRef c) url options h =
      fetch_send Url_resolve global_fetch (VRef c)
        (VRef m, url +:+ "?" +:+ queryString_stringify h' (VRef q)) h' /\
    h' !! m = Some (OPlain props) /\
    props !! "method" = Some (VStr name) /\
    (forall k, k <> "method" -> k <> "headers" -> k <> "query" ->
       props !! k = match own_props h options !! k with
                    | Some v => Some v
                    | None => cfg_props A !! k
                    end) /\
    h' !! q = Some (OPlain (Bq ∪ cfg_query A)) /\
    h `prefix_of` h'.
Proof.
  intros Hc Hcp HA Hh Hq Hverb.
  assert (Hcall : verb (VRef c) url options =
            (request <- with_method options name ;;
             fetch Url_resolve queryString_stringify global_fetch (VRef c) url request)).
  { unfold verbs in Hverb. rewrite !elem_of_cons, elem_of_nil in Hverb.
    destruct Hverb as [[= -> ->] | [[= -> ->] | [[= -> ->] | []]]]; reflexivity. }
  rewrite Hcall.
  eexists _, _, _, _. split; [apply (verb_run h c a cp A options Bh Bq); assumption|].
  split; [heap_lookup|].
  split.
  { unfold merged_props. rewrite !lookup_insert_ne by discriminate.
    rewrite union_lookup_right_biased. cbn [cfg_props]. rewrite lookup_insert_eq. reflexivity. }
  split.
  { intros k Hm Hhd Hqr. unfold merged_props. rewrite !lookup_insert_ne by congruence.
    rewrite union_lookup_right_biased. cbn [cfg_props].
    rewrite lookup_insert_ne by congruence. reflexivity. }
  split; [heap_lookup|]. apply prefix_app_r. reflexivity.
Qed.

End Verbs.

Lemma verbs_force_method_witness :
  exists (m q : loc) (h' : heap) (props : gmap string value),
    post String.append stub_stringify (stub_transport bare_response)
         (VRef 0) "/sample" (VRef 2) options_test_heap =
      fetch_send String.append (stub_transport bare_response) (VRef 0)
        (VRef m, "/sample" +:+ "?" +:+ stub_stringify h' (VRef q)) h' /\
    h' !! m = Some (OPlain props) /\
    props !! "method" = Some (VStr "post") /\
    props !! "auth" = Some (VNum 321).
Proof.
  destruct (verbs_force_method String.append stub_stringify (stub_transport bare_response)
              options_test_heap 0 1 (client_props "http://example.com" (VRef 1))
              (mkConfiguration (<["auth" := VNum 123]> {[ "method" := VStr "get" ]}) ∅ ∅)
              (VRef 2) ∅ ∅ "/sample" "post"
              (post String.append stub_stringify (stub_transport bare_response)))
    as (m & q & h' & props & Hrun & Hm & Hmethod & Hkeys & _);
    [vm_compute; reflexivity .. | |].
  - unfold verbs. rewrite !elem_of_cons. right. left. reflexivity.
  - exists m, q, h', props. rewrite (Hkeys "auth") by discriminate.
    repeat split; [exact Hrun | exact Hm | exact Hmethod].
Defined.

Section JsonRequests.

Variable Url_resolve : string -> string -> string.
Variable queryString_stringify : heap -> value -> string.
Variable JSON_stringify_object : heap -> loc -> completion value.
Variable global_fetch : string -> value -> M value.

Lemma json_request_config (h : heap) (options body : value) Bq :
  mapping_of h (field (own_props h options) "query") = Some Bq ->
  read_config (h ++ [OPlain json_headers; OPlain (json_request h options body)])
              (VRef (1 + length h)) =
    Some (mkConfiguration (json_request h options body) json_headers Bq).
Proof.
  intros Hq. apply read_config_intro.
  - heap_lookup.
  - rewrite (field_lookup _ "headers" (VRef (length h))).
    + apply mapping_of_ref. heap_lookup.
    + unfold json_request. rewrite lookup_insert_ne by discriminate. apply lookup_insert_eq.
  - unfold field, json_request in *. rewrite !lookup_insert_ne by discriminate.
    apply mapping_of_extend. exact Hq.
Qed.

Lemma fetchWithJSON_run (h : heap) (c a : loc) cp (A : Configuration)
      (json options body : value) Bq (url : string) :
  h !! c = Some (OPlain cp) ->
  cp !! "options" = Some (VRef a) ->
  read_config h (VRef a) = Some A ->
  mapping_of h (field (own_props h options) "query") = Some Bq ->
  json <> VUndefined ->
  JSON_stringify JSON_stringify_object json (h ++ [OPlain json_headers]) =
    (Normal body, h ++ [OPlain json_headers]) ->
  let h1 := h ++ [OPlain json_headers; OPlain (json_request h options body)] in
  let h' := h ++ [OPlain json_headers; OPlain (json_request h options body);
                  OPlain (json_headers ∪ cfg_headers A);
                  OPlain (Bq ∪ cfg_query A);
                  OPlain (merged_props h1 A
                            (mkConfiguration (json_request h options body) json_headers Bq))] in
  fetchWithJSON Url_resolve queryString_stringify JSON_stringify_object global_fetch
    (VRef c) url json options h =
    fetch_send Url_resolve global_fetch (VRef c)
      (VRef (4 + length h), url +:+ "?" +:+ queryString_stringify h' (VRef (3 + length h))) h'.
Proof.
  intros Hc Hcp HA Hq Hjson Hbody h1 h'.
  rewrite fetchWithJSON_unfold by exact Hjson.
  js_do. js_do. eapply run_bind; [exact Hbody|]. js_do.
  etrans.
  { apply (fetch_run _ _ _ _ c a (1 + length h) cp A
             (mkConfiguration (json_request h options body) json_headers Bq)).
    - heap_lookup.
    - exact Hcp.
    - apply read_config_extend. exact HA.
    - apply json_request_config. exact Hq. }
  cbn [cfg_headers cfg_query]. unfold h', h1. heap_norm. reflexivity.
Qed.

(** What the merged request of a JSON dispatch holds. *)
Lemma json_merged_props (h1 : heap) (A : Configuration) (request : gmap string value)
      Bq (body : value) :
  request !! "body" = Some body ->
  let props := merged_props h1 A (mkConfiguration request json_headers Bq) in
  props !! "body" = Some body /\
  props !! "headers" = Some (VRef (length h1)) /\
  (forall k, k <> "headers" -> k <> "query" ->
     props !! k = match request !! k with Some v => Some v | None => cfg_props A !! k end).
Proof.
  intros Hbody props. unfold props, merged_props. cbn [cfg_props].
  split; [|split].
  - rewrite !lookup_insert_ne by discriminate. rewrite union_lookup_right_biased, Hbody.
    reflexivity.
  - rewrite lookup_insert_ne by discriminate. apply lookup_insert_eq.
  - intros k Hh Hq. rewrite !lookup_insert_ne by congruence. apply union_lookup_right_biased.
Qed.

Lemma json_headers_merged (A : gmap string value) :
  (json_headers ∪ A) !! "Accept" = Some (VStr "application/json") /\
  (json_headers ∪ A) !! "Content-Type" = Some (VStr "application/json") /\
  (forall k, k <> "Accept" -> k <> "Content-Type" -> (json_headers ∪ A) !! k = A !! k).
Proof.
  rewrite !union_lookup_right_biased. unfold json_headers. split; [|split].
  - rewrite lookup_insert_ne by discriminate. rewrite lookup_singleton_eq. reflexivity.
  - rewrite lookup_insert_eq. reflexivity.
  - intros k Ha Hc. rewrite union_lookup_right_biased.
    rewrite lookup_insert_ne by congruence. rewrite lookup_singleton_ne by congruence.
    reflexivity.
Qed.

(** X6: the request of [fetchWithJSON] for a [json] other than
    [undefined]. When [JSON.stringify] returns [body], the merged
    options handed to the transport have that body and a headers object
    with Accept and Content-Type [application/json]; every other header
    is the client's own, so the headers of the caller's [options] are
    dropped (nothing is assumed of them); the other keys are the
    caller's, else the client's. When [JSON.stringify] throws,
    [fetchWithJSON] throws the same value and nothing is sent. *)
Theorem fetchWithJSON_headers (h : heap) (c a : loc) cp (A : Configuration)
        (json options : value) Bq (url : string) :
  h !! c = Some (OPlain cp) ->
  cp !! "options" = Some (VRef a) ->
  read_config h (VRef a) = Some A ->
  mapping_of h (field (own_props h options) "query") = Some Bq ->
  json <> VUndefined ->
  (forall body : value,
     JSON_stringify JSON_stringify_object json (h ++ [OPlain json_headers]) =
       (Normal body, h ++ [OPlain json_headers]) ->
     exists (m lh q : loc) (h' : heap) (props headers : gmap string value),
       fetchWithJSON Url_resolve queryString_stringify JSON_stringify_object global_fetch
         (VRef c) url json options h =
         fetch_send Url_resolve global_fetch (VRef c)
           (VRef m, url +:+ "?" +:+ queryString_stringify h' (VRef q)) h' /\
       h' !! m = Some (OPlain props) /\
       props !! "body" = Some body /\
       props !! "headers" = Some (VRef lh) /\
       h' !! lh = Some (OPlain headers) /\
       headers !! "Accept" = Some (VStr "application/json") /\
       headers !! "Content-Type" = Some (VStr "application/json") /\
       (forall k, k <> "Accept" -> k <> "Content-Type" ->
          headers !! k = cfg_headers A !! k) /\
       (forall k, k <> "body" -> k <> "headers" -> k <> "query" ->
          props !! k = match own_props h options !! k with
                       | Some v => Some v
                       | None => cfg_props A !! k
                       end) /\
       h `prefix_of` h') /\
  (forall e : value,
     JSON_stringify JSON_stringify_object json (h ++ [OPlain json_headers]) =
       (Throw e, h ++ [OPlain json_headers]) ->
     fetchWithJSON Url_resolve queryString_stringify JSON_stringify_object global_fetch
       (VRef c) url json options h = (Throw e, h ++ [OPlain json_headers])).
Proof.
  intros Hc Hcp HA Hq Hjson. split.
  - intros body Hbody.
    pose proof (fetchWithJSON_run h c a cp A json options body Bq url
                  Hc Hcp HA Hq Hjson Hbody) as Hrun. cbv zeta in Hrun.
    destruct (json_merged_props
                (h ++ [OPlain json_headers; OPlain (json_request h options body)])
                A (json_request h options body) Bq body (lookup_insert_eq _ _ _))
      as (Hb & Hh & Hkeys).
    destruct (json_headers_merged (cfg_headers A)) as (Haccept & Htype & Hother).
    eexists _, (2 + length h), _, _, _, _. split; [exact Hrun|].
    split; [heap_lookup|]. split; [exact Hb|].
    split; [rewrite Hh, length_alloc; reflexivity|].
    split; [heap_lookup|]. split; [exact Haccept|]. split; [exact Htype|].
    split; [exact Hother|].
    split; [|apply prefix_app_r; reflexivity].
    intros k Hkb Hkh Hkq. rewrite (Hkeys k Hkh Hkq). unfold json_request.
    rewrite !lookup_insert_ne by congruence. reflexivity.
  - intros e Hthrow. rewrite fetchWithJSON_unfold by exact Hjson.
    js_do. js_do. apply run_bind_throw. exact Hthrow.
Qed.

(** X7: [postJSON] and [putJSON] are [fetchWithJSON] on the caller's
    options with [method] set to post or put. With [json] undefined
    they throw the ApiError "No JSON object given" once that options
    object is built; otherwise the merged options handed to the
    transport have the method, the JSON body, and the JSON headers over
    the client's own. *)
Theorem json_verbs_force_method (h : heap) (c a : loc) cp (A : Configuration)
        (options : value) Bq (url name : string)
        (verb : value -> string -> value -> value -> M value) :
  h !! c = Some (OPlain cp) ->
  cp !! "options" = Some (VRef a) ->
  read_config h (VRef a) = Some A ->
  mapping_of h (field (own_props h options) "query") = Some Bq ->
  (name, verb) ∈ json_verbs Url_resolve queryString_stringify JSON_stringify_object
                            global_fetch ->
  let h1 := h ++ [OPlain (<["method" := VStr name]> (own_props h options))] in
  verb (VRef c) url VUndefined options h =
    (Throw (VRef (1 + length h)), h1 ++ [OError "ApiError" "No JSON object given" ∅]) /\
  (forall json body : value,
     json <> VUndefined ->
     JSON_stringify JSON_stringify_object json (h1 ++ [OPlain json_headers]) =
       (Normal body, h1 ++ [OPlain json_headers]) ->
     exists (m lh q : loc) (h' : heap) (props headers : gmap string value),
       verb (VRef c) url json options h =
         fetch_send Url_resolve global_fetch (VRef c)
           (VRef m, url +:+ "?" +:+ queryString_stringify h' (VRef q)) h' /\
       h' !! m = Some (OPlain props) /\
       props !! "method" = Some (VStr name) /\
       props !! "body" = Some body /\
       props !! "headers" = Some (VRef lh) /\
       h' !! lh = Some (OPlain headers) /\
       headers !! "Accept" = Some (VStr "application/json") /\
       headers !! "Content-Type" = Some (VStr "application/json") /\
       (forall k, k <> "Accept" -> k <> "Content-Type" ->
          headers !! k = cfg_headers A !! k) /\
       h `prefix_of` h').
Proof.
  intros Hc Hcp HA Hq Hverb h1.
  assert (Hcall : forall json, verb (VRef c) url json options =
            (request <- with_method options name ;;
             fetchWithJSON Url_resolve queryString_stringify JSON_stringify_object
               global_fetch (VRef c) url json request)).
  { intros json. unfold json_verbs in Hverb. rewrite !elem_of_cons, elem_of_nil in Hverb.
    destruct Hverb as [[= -> ->] | [[= -> ->] | []]]; reflexivity. }
  split.
  - rewrite Hcall. unfold with_method. js_do. unfold h1, fetchWithJSON, throw_new. js_do.
    reflexivity.
  - intros json body Hjson Hbody.
    assert (Hreq : h1 !! length h =
                     Some (OPlain (<["method" := VStr name]> (own_props h options))))
      by (unfold h1; heap_lookup).
    assert (Hown : own_props h1 (VRef (length h)) =
                     <["method" := VStr name]> (own_props h options))
      by (apply own_props_plain; exact Hreq).
    assert (Hq1 : mapping_of h1 (field (own_props h1 (VRef (length h))) "query") = Some Bq).
    { rewrite Hown. unfold field in *. rewrite lookup_insert_ne by discriminate.
      apply mapping_of_extend. exact Hq. }
    pose proof (fetchWithJSON_run h1 c a cp A json (VRef (length h)) body Bq url
                  (lookup_app_l_Some _ _ _ _ Hc) Hcp (read_config_extend _ _ _ _ HA)
                  Hq1 Hjson Hbody) as Hrun. cbv zeta in Hrun.
    destruct (json_merged_props
                (h1 ++ [OPlain json_headers; OPlain (json_request h1 (VRef (length h)) body)])
                A (json_request h1 (VRef (length h)) body) Bq body (lookup_insert_eq _ _ _))
      as (Hb & Hh & Hkeys).
    destruct (json_headers_merged (cfg_headers A)) as (Haccept & Htype & Hother).
    eexists _, (2 + length h1), _, _, _, _. split.
    { rewrite Hcall. unfold with_method. js_do. exact Hrun. }
    split; [heap_lookup|].
    split.
    { rewrite (Hkeys "method") by discriminate. unfold json_request.
      rewrite !lookup_insert_ne by discriminate. rewrite Hown, lookup_insert_eq.
      reflexivity. }
    split; [exact Hb|].
    split; [rewrite Hh, length_alloc; reflexivity|].
    split; [heap_lookup|]. split; [exact Haccept|]. split; [exact Htype|].
    split; [exact Hother|].
    unfold h1. rewrite <- app_assoc. apply prefix_app_r. reflexivity.
Qed.

End JsonRequests.

Lemma fetchWithJSON_headers_witness :
  exists (m lh q : loc) (h' : heap) (props headers : gmap string value),
    fetchWithJSON String.append stub_stringify stub_encode (stub_transport bare_response)
      (VRef 0) "/sample" (VNum 1) (VRef 3) headers_test_heap =
      fetch_send String.append (stub_transport bare_response) (VRef 0)
        (VRef m, "/sample" +:+ "?" +:+ stub_stringify h' (VRef q)) h' /\
    h' !! m = Some (OPlain props) /\
    props !! "body" = Some (VStr "1") /\
    props !! "headers" = Some (VRef lh) /\
    h' !! lh = Some (OPlain headers) /\
    headers !! "Content-Type" = Some (VStr "application/json") /\
    headers !! "Foo" = Some (VStr "Bar") /\
    headers !! "Token" = None.
Proof.
  destruct (fetchWithJSON_headers String.append stub_stringify stub_encode
              (stub_transport bare_response) headers_test_heap 0 1
              (client_props "http://example.com" (VRef 1)) headers_test_base
              (VNum 1) (VRef 3) ∅ "/sample") as [Hsent _];
    [vm_compute; reflexivity .. | discriminate |].
  destruct (Hsent (VStr "1")) as (m & lh & q & h' & props & headers & Hrun & Hm & Hbody & Hh
                                  & Hlh & _ & Htype & Hother & _);
    [vm_compute; reflexivity|].
  exists m, lh, q, h', props, headers.
  rewrite (Hother "Foo"), (Hother "Token") by discriminate.
  repeat split; assumption || (vm_compute; reflexivity).
Defined.

Lemma json_verbs_force_method_witness :
  exists (m : loc) (h' : heap) (props : gmap string value) (sent : string),
    putJSON String.append stub_stringify stub_encode (stub_transport bare_response)
      (VRef 0) "/sample" VNull VUndefined sample_heap =
      fetch_send String.append (stub_transport bare_response) (VRef 0) (VRef m, sent) h' /\
    h' !! m = Some (OPlain props) /\
    props !! "method" = Some (VStr "put") /\
    props !! "body" = Some (VStr "null").
Proof.
  destruct (json_verbs_force_method String.append stub_stringify stub_encode
              (stub_transport bare_response) sample_heap 0 1
              (client_props "http://example.com" (VRef 1)) (mkConfiguration ∅ ∅ ∅)
              VUndefined ∅ "/sample" "put"
              (putJSON String.append stub_stringify stub_encode
                 (stub_transport bare_response))) as [_ Hsent];
    [vm_compute; reflexivity .. | |].
  - unfold json_verbs. rewrite !elem_of_cons. right. left. reflexivity.
  - destruct (Hsent VNull (VStr "null")) as (m & lh & q & h' & props & headers & Hrun & Hm
                                             & Hmethod & Hbody & _);
      [discriminate | vm_compute; reflexivity |].
    exists m, h', props, ("/sample" +:+ "?" +:+ stub_stringify h' (VRef q)).
    repeat split; assumption.
Defined.

(** ** Failures of the decoder *)

Lemma transform_decode_unfulfilled (h : heap) (this : value) (l f p : loc) (r : Response)
      (s : settlement) :
  h !! l = Some (OResponse r) ->
  field (members r) (decoder_name r) = VRef f ->
  h !! f = Some (OFunction (Normal (VRef p))) ->
  h !! p = Some (OPromise s) ->
  (forall v, s <> Fulfilled v) ->
  exists (q : loc) (h' : heap),
    transform this (VRef l) h = (Normal (VRef q), h') /\
    h' !! q = Some (OPromise s).
Proof.
  intros Hl Hf Hfun Hp Hs. unfold transform.
  assert (Hthen : forall t, has_then (VRef p) (h ++ t) = (Normal true, h ++ t)).
  { intros t. unfold has_then. rewrite (lookup_app_l_Some _ _ _ _ Hp). reflexivity. }
  assert (Hcall : forall t k, call_then (VRef p) k (h ++ t) =
                              (Normal (VRef (length (h ++ t))), (h ++ t) ++ [OPromise s])).
  { intros t k. unfold call_then. rewrite (lookup_app_l_Some _ _ _ _ Hp).
    destruct s as [v|e|]; [destruct (Hs v eq_refl) | reflexivity | reflexivity]. }
  destruct (ok r) eqn:Hok.
  - eexists _, _. split.
    + etrans; [apply (transform_decoded h this l f r (VRef p)); assumption|].
      js_step ltac:(apply as_response_run; heap_lookup). rewrite Hok. cbn [negb].
      js_step ltac:(apply Hthen). apply Hcall.
    + apply list_lookup_middle. reflexivity.
  - eexists _, _. split.
    + etrans; [apply (transform_decoded h this l f r (VRef p)); assumption|].
      js_step ltac:(apply as_response_run; heap_lookup). rewrite Hok. cbn [negb].
      js_do. js_set. js_step ltac:(apply Hthen). apply Hcall.
    + apply list_lookup_middle. reflexivity.
Qed.

(** X8: a failure of the decoder passes through [transform] as it is,
    whatever the status. If the decoder throws, [transform] throws the
    same value; if the promise it returns rejects, the promise of
    [transform] rejects with the same value, also for a response that is
    not ok, whose ok-status error is then never delivered; if that
    promise never settles, neither does the promise of [transform]. *)
Theorem transform_decode_failure (h : heap) (this : value) (l f : loc) (r : Response) :
  h !! l = Some (OResponse r) ->
  field (members r) (decoder_name r) = VRef f ->
  (forall e : value,
     h !! f = Some (OFunction (Throw e)) ->
     transform this (VRef l) h = (Throw e, h ++ [OFunction (Throw e)])) /\
  (forall (p : loc) (e : value),
     h !! f = Some (OFunction (Normal (VRef p))) ->
     h !! p = Some (OPromise (Rejected e)) ->
     exists (q : loc) (h' : heap),
       transform this (VRef l) h = (Normal (VRef q), h') /\
       h' !! q = Some (OPromise (Rejected e))) /\
  (forall p : loc,
     h !! f = Some (OFunction (Normal (VRef p))) ->
     h !! p = Some (OPromise Unsettled) ->
     exists (q : loc) (h' : heap),
       transform this (VRef l) h = (Normal (VRef q), h') /\
       h' !! q = Some (OPromise Unsettled)).
Proof.
  intros Hl Hf. split; [|split].
  - intros e Hfun. unfold transform.
    js_step ltac:(apply (transformer_run h this l f r (Throw e)); assumption).
    apply run_bind_throw. apply call_function. heap_lookup.
  - intros p e Hfun Hp.
    apply (transform_decode_unfulfilled h this l f p r (Rejected e)); congruence.
  - intros p Hfun Hp.
    apply (transform_decode_unfulfilled h this l f p r Unsettled); congruence.
Qed.

Lemma transform_decode_failure_witness :
  exists (q : loc) (h' : heap),
    transform VUndefined (VRef 2) broken_json_heap = (Normal (VRef q), h') /\
    h' !! q = Some (OPromise (Rejected (VStr "Unexpected token"))).
Proof.
  destruct (transform_decode_failure broken_json_heap VUndefined 2 1 broken_json_response)
    as (_ & Hrejected & _); [vm_compute; reflexivity ..|].
  apply (Hrejected 0 (VStr "Unexpected token")); vm_compute; reflexivity.
Defined.

(** ** What a dispatch delivers *)


Lemma call_then_promise (h : heap) (p : loc) (s : settlement) (k : value -> M value) :
  h !! p = Some (OPromise s) ->
  exists (s' : settlement) (h' : heap),
    call_then (VRef p) k h = (Normal (VRef (length h')), h' ++ [OPromise s']).
Proof.
  intros Hp. unfold call_then. rewrite Hp. destruct s as [v|e|].
  - destruct (k v h) as [[res|e] h1]; eexists _, _; reflexivity.
  - eexists _, _; reflexivity.
  - eexists _, _; reflexivity.
Qed.

Section Delivery.

Variable Url_resolve : string -> string -> string.
Variable queryString_stringify : heap -> value -> string.
Variable global_fetch : string -> value -> M value.


(** X10: a failure of the transport is handed on as it is. When its
    promise rejects, the promise [fetch] returns rejects with the same
    value, and [fetch] allocates nothing else: no ApiError, no decoder.
    When its promise never settles, neither does the one [fetch]
    returns. When the transport throws, so does [fetch]. *)
Theorem fetch_transport_failure (this : value) (h h1 h2 h3 : heap) (url fullUrl : string)
        (options : value) (request : value * string) :
  fetch_url queryString_stringify this url options h = (Normal request, h1) ->
  buildFullUrl Url_resolve this (snd request) h1 = (Normal fullUrl, h2) ->
  (forall e : value,
     global_fetch fullUrl (fst request) h2 = (Throw e, h3) ->
     fetch Url_resolve queryString_stringify global_fetch this url options h =
       (Throw e, h3)) /\
  (forall (answer : loc) (e : value),
     global_fetch fullUrl (fst request) h2 = (Normal (VRef answer), h3) ->
     h3 !! answer = Some (OPromise (Rejected e)) ->
     fetch Url_resolve queryString_stringify global_fetch this url options h =
       (Normal (VRef (length h3)), h3 ++ [OPromise (Rejected e)])) /\
  (forall answer : loc,
     global_fetch fullUrl (fst request) h2 = (Normal (VRef answer), h3) ->
     h3 !! answer = Some (OPromise Unsettled) ->
     fetch Url_resolve queryString_stringify global_fetch this url options h =
       (Normal (VRef (length h3)), h3 ++ [OPromise Unsettled])).
Proof.
  intros Hreq Hurl. split; [|split].
  - intros e Hfetch. unfold fetch.
    eapply run_bind; [exact Hreq|]. eapply run_bind; [exact Hurl|].
    apply run_bind_throw. exact Hfetch.
  - intros answer e Hfetch Hanswer. unfold fetch.
    eapply run_bind; [exact Hreq|]. eapply run_bind; [exact Hurl|].
    eapply run_bind; [exact Hfetch|]. unfold call_then. rewrite Hanswer. reflexivity.
  - intros answer Hfetch Hanswer. unfold fetch.
    eapply run_bind; [exact Hreq|]. eapply run_bind; [exact Hurl|].
    eapply run_bind; [exact Hfetch|]. unfold call_then. rewrite Hanswer. reflexivity.
Qed.

End Delivery.


Lemma fetch_transport_failure_witness :
  fetch String.append stub_stringify (failing_transport (VStr "network down"))
        (VRef 0) "/sample" VUndefined sample_heap =
    (Normal (VRef 7),
     sample_request_heap ++ [OPromise (Rejected (VStr "network down"));
                             OPromise (Rejected (VStr "network down"))]).
Proof.
  destruct (fetch_transport_failure String.append stub_stringify
              (failing_transport (VStr "network down")) (VRef 0) sample_heap
              sample_request_heap sample_request_heap
              (sample_request_heap ++ [OPromise (Rejected (VStr "network down"))])
              "/sample" "http://example.com/sample?" VUndefined (VRef 5, "/sample?"))
    as (_ & Hrejected & _); [vm_compute; reflexivity ..|].
  apply (Hrejected 6 (VStr "network down")); vm_compute; reflexivity.
Defined.

(** ** Dispatches that return *)

Section Totality.

Variable Url_resolve : string -> string -> string.
Variable queryString_stringify : heap -> value -> string.
Variable global_fetch : string -> value -> M value.

(** Once the request is built, a transport that returns a promise makes
    the dispatch return one: [then] runs [transform] and keeps what it
    throws. *)
Lemma fetch_send_promise (this : value) (request : value * string) (fullUrl : string)
      (h1 h2 : heap) :
  returns_promise global_fetch ->
  buildFullUrl Url_resolve this (snd request) h1 = (Normal fullUrl, h2) ->
  exists (p : loc) (s : settlement) (h' : heap),
    fetch_send Url_resolve global_fetch this request h1 = (Normal (VRef p), h') /\
    h' !! p = Some (OPromise s).
Proof.
  intros Htransport Hurl.
  destruct (Htransport fullUrl (fst request) h2) as (p & s & h3 & Hrun & Hp).
  destruct (call_then_promise h3 p s (transform this) Hp) as (s' & h4 & Hthen).
  exists (length h4), s', (h4 ++ [OPromise s']). split.
  - unfold fetch_send. eapply run_bind; [exact Hurl|]. eapply run_bind; [exact Hrun|].
    exact Hthen.
  - apply list_lookup_middle. reflexivity.
Qed.

Lemma fetch_throws_while_building (this : value) (url : string) (options : value)
      (h h' : heap) (e : value) :
  returns_promise global_fetch ->
  fetch Url_resolve queryString_stringify global_fetch this url options h = (Throw e, h') ->
  fetch_url queryString_stringify this url options h = (Throw e, h') \/
  exists (request : value * string) (h1 : heap),
    fetch_url queryString_stringify this url options h = (Normal request, h1) /\
    buildFullUrl Url_resolve this (snd request) h1 = (Throw e, h').
Proof.
  intros Htransport.
  change (fetch Url_resolve queryString_stringify global_fetch this url options)
    with (request <- fetch_url queryString_stringify this url options ;;
          fetch_send Url_resolve global_fetch this request).
  unfold bind at 1.
  destruct (fetch_url queryString_stringify this url options h) as [[request|e1] h1];
    [|intros [= <- <-]; left; reflexivity].
  intros Hsend. right. exists request, h1. split; [reflexivity|].
  destruct (buildFullUrl Url_resolve this (snd request) h1) as [[fullUrl|e2] h2] eqn:Hurl.
  - destruct (fetch_send_promise this request fullUrl h1 h2 Htransport Hurl)
      as (p & s & h3 & Hrun & _).
    congruence.
  - unfold fetch_send in Hsend. rewrite (run_bind_throw _ _ _ _ _ Hurl) in Hsend.
    injection Hsend as <- <-. reflexivity.
Qed.

Lemma verb_unfold (name : string) (verb : value -> string -> value -> M value)
      (this : value) (url : string) (options : value) :
  (name, verb) ∈ verbs Url_resolve queryString_stringify global_fetch ->
  verb this url options =
    (request <- with_method options name ;;
     fetch Url_resolve queryString_stringify global_fetch this url request).
Proof.
  unfold verbs. rewrite !elem_of_cons, elem_of_nil.
  intros [[= -> ->] | [[= -> ->] | [[= -> ->] | []]]]; reflexivity.
Qed.

(** X11: with a transport that returns a promise, whatever [fetch],
    [get], [post] or [put] throw was thrown while the request was built,
    that is while the options were merged and the query appended, or
    while [buildFullUrl] ran. Once the transport is called they return
    normally, so a failure to decode or a status that is not ok never
    leaves them as an exception. *)
Theorem dispatch_throws_while_building (this : value) (url : string) (options : value)
        (h h' : heap) (e : value) :
  returns_promise global_fetch ->
  (fetch Url_resolve queryString_stringify global_fetch this url options h = (Throw e, h') ->
   fetch_url queryString_stringify this url options h = (Throw e, h') \/
   exists (request : value * string) (h1 : heap),
     fetch_url queryString_stringify this url options h = (Normal request, h1) /\
     buildFullUrl Url_resolve this (snd request) h1 = (Throw e, h')) /\
  (forall (name : string) (verb : value -> string -> value -> M value),
     (name, verb) ∈ verbs Url_resolve queryString_stringify global_fetch ->
     verb this url options h = (Throw e, h') ->
     let given := VRef (length h) in
     let h0 := h ++ [OPlain (<["method" := VStr name]> (own_props h options))] in
     fetch_url queryString_stringify this url given h0 = (Throw e, h') \/
     exists (request : value * string) (h1 : heap),
       fetch_url queryString_stringify this url given h0 = (Normal request, h1) /\
       buildFullUrl Url_resolve this (snd request) h1 = (Throw e, h')).
Proof.
  intros Htransport. split.
  - apply fetch_throws_while_building. exact Htransport.
  - intros name verb Hverb Hrun given h0.
    rewrite (verb_unfold name verb this url options Hverb) in Hrun.
    apply (fetch_throws_while_building this url given h0 h' e Htransport).
    exact Hrun.
Qed.

(** X12: with a transport that returns a promise, a dispatch whose
    request could be built returns a promise, whatever the transport
    answers and whatever [transform] makes of it: when the options are
    merged, the query is appended and [buildFullUrl] returns, [fetch]
    returns a promise, and so do [get], [post] and [put]. *)
Theorem dispatch_returns_promise (this : value) (url : string) (options : value)
        (h : heap) :
  returns_promise global_fetch ->
  (forall (request : value * string) (fullUrl : string) (h1 h2 : heap),
     fetch_url queryString_stringify this url options h = (Normal request, h1) ->
     buildFullUrl Url_resolve this (snd request) h1 = (Normal fullUrl, h2) ->
     exists (p : loc) (s : settlement) (h' : heap),
       fetch Url_resolve queryString_stringify global_fetch this url options h =
         (Normal (VRef p), h') /\
       h' !! p = Some (OPromise s)) /\
  (forall (name : string) (verb : value -> string -> value -> M value)
          (request : value * string) (fullUrl : string) (h1 h2 : heap),
     (name, verb) ∈ verbs Url_resolve queryString_stringify global_fetch ->
     fetch_url queryString_stringify this url (VRef (length h))
       (h ++ [OPlain (<["method" := VStr name]> (own_props h options))]) =
       (Normal request, h1) ->
     buildFullUrl Url_resolve this (snd request) h1 = (Normal fullUrl, h2) ->
     exists (p : loc) (s : settlement) (h' : heap),
       verb this url options h = (Normal (VRef p), h') /\
       h' !! p = Some (OPromise s)).
Proof.
  intros Htransport.
  assert (Hfetch : forall (given : value) (h0 : heap) (request : value * string)
                          (fullUrl : string) (h1 h2 : heap),
            fetch_url queryString_stringify this url given h0 = (Normal request, h1) ->
            buildFullUrl Url_resolve this (snd request) h1 = (Normal fullUrl, h2) ->
            exists (p : loc) (s : settlement) (h' : heap),
              fetch Url_resolve queryString_stringify global_fetch this url given h0 =
                (Normal (VRef p), h') /\
              h' !! p = Some (OPromise s)).
  { intros given h0 request fullUrl h1 h2 Hreq Hurl.
    destruct (fetch_send_promise this request fullUrl h1 h2 Htransport Hurl)
      as (p & s & h' & Hrun & Hp).
    exists p, s, h'. split; [|exact Hp].
    unfold fetch. eapply run_bind; [exact Hreq|]. exact Hrun. }
  split.
  - intros request fullUrl h1 h2. apply Hfetch.
  - intros name verb request fullUrl h1 h2 Hverb Hreq Hurl.
    rewrite (verb_unfold name verb this url options Hverb).
    destruct (Hfetch _ _ request fullUrl h1 h2 Hreq Hurl) as (p & s & h' & Hrun & Hp).
    exists p, s, h'. split; [|exact Hp].
    unfold with_method. js_do. exact Hrun.
Qed.

End Totality.

Lemma dispatch_throws_while_building_witness :
  fetch_url stub_stringify (VRef 0) "/sample" (VRef 1)
    (null_options_heap ++ [OPlain {[ "method" := VStr "get" ]}]) =
    (Throw (VRef 2),
     null_options_heap ++
       [OPlain {[ "method" := VStr "get" ]};
        OError "TypeError" "Cannot read property 'headers' of null" ∅]) \/
  exists (request : value * string) (h1 : heap),
    fetch_url stub_stringify (VRef 0) "/sample" (VRef 1)
      (null_options_heap ++ [OPlain {[ "method" := VStr "get" ]}]) = (Normal request, h1) /\
    buildFullUrl String.append (VRef 0) (snd request) h1 =
      (Throw (VRef 2),
       null_options_heap ++
         [OPlain {[ "method" := VStr "get" ]};
          OError "TypeError" "Cannot read property 'headers' of null" ∅]).
Proof.
  destruct (dispatch_throws_while_building String.append stub_stringify
              (stub_transport bare_response) (VRef 0) "/sample" VUndefined null_options_heap
              (null_options_heap ++
                 [OPlain {[ "method" := VStr "get" ]};
                  OError "TypeError" "Cannot read property 'headers' of null" ∅])
              (VRef 2) (stub_transport_returns_promise _)) as [_ Hverbs].
  apply (Hverbs "get" (get String.append stub_stringify (stub_transport bare_response))).
  - unfold verbs. rewrite !elem_of_cons. left. reflexivity.
  - vm_compute. reflexivity.
Defined.

Lemma dispatch_returns_promise_witness :
  exists (p : loc) (s : settlement) (h' : heap),
    fetch String.append stub_stringify (stub_transport bare_response)
          (VRef 0) "/sample" VUndefined sample_heap = (Normal (VRef p), h') /\
    h' !! p = Some (OPromise s).
Proof.
  destruct (dispatch_returns_promise String.append stub_stringify
              (stub_transport bare_response) (VRef 0) "/sample" VUndefined sample_heap
              (stub_transport_returns_promise _)) as [Hfetch _].
  apply (Hfetch (VRef 5, "/sample?") "http://example.com/sample?"
                sample_request_heap sample_request_heap); vm_compute; reflexivity.
Defined.

(** ** Authorised clients *)






Section Authorized.

Variable queryString_stringify : heap -> value -> string.


End Authorized.


(** ** What no call changes *)

Lemma preserves_grows {A} (h0 : heap) (m : M A) :
  (forall h h' r, m h = (r, h') -> h `prefix_of` h') -> preserves h0 m.
Proof. intros Hm h h' r Hpre Hrun. etrans; [exact Hpre | exact (Hm _ _ _ Hrun)]. Qed.

Lemma preserves_ret {A} (h0 : heap) (a : A) : preserves h0 (ret a).
Proof. intros h h' r Hpre [= <- <-]. exact Hpre. Qed.

Lemma preserves_get_heap (h0 : heap) : preserves h0 get_heap.
Proof. intros h h' r Hpre [= <- <-]. exact Hpre. Qed.

Lemma preserves_alloc (h0 : heap) (o : object) : preserves h0 (alloc o).
Proof. intros h h' r Hpre [= <- <-]. apply prefix_app_r. exact Hpre. Qed.

Lemma preserves_throw_new {A} (h0 : heap) (cls message : string) :
  preserves h0 (@throw_new A cls message).
Proof. intros h h' r Hpre [= <- <-]. apply prefix_app_r. exact Hpre. Qed.

Lemma preserves_bind {A B} (h0 : heap) (m : M A) (k : A -> M B) :
  preserves h0 m -> (forall a, preserves h0 (k a)) -> preserves h0 (bind m k).
Proof.
  intros Hm Hk h h' r Hpre. unfold bind.
  destruct (m h) as [[a|e] h1] eqn:Hrun.
  - apply Hk. exact (Hm _ _ _ Hpre Hrun).
  - intros [= <- <-]. exact (Hm _ _ _ Hpre Hrun).
Qed.

Lemma preserves_alloc_bind {B} (h0 : heap) (o : object) (k : value -> M B) :
  (forall l, length h0 <= l -> preserves h0 (k (VRef l))) -> preserves h0 (bind (alloc o) k).
Proof.
  intros Hk h h' r Hpre. unfold bind, alloc.
  apply Hk; [apply prefix_length; exact Hpre | apply prefix_app_r; exact Hpre].
Qed.

Lemma preserves_set_prop (h0 : heap) (l : loc) (name : string) (v : value) :
  length h0 <= l -> preserves h0 (set_prop (VRef l) name v).
Proof.
  intros Hl h h' r [t ->]. unfold set_prop.
  destruct ((h0 ++ t) !! l) as [[props|cls msg props| | |]|]; intros [= <- <-];
    try (apply prefix_app_r; reflexivity);
    rewrite insert_app_r_alt by exact Hl; apply prefix_app_r; reflexivity.
Qed.

Lemma preserves_get_prop (h0 : heap) (v : value) (name : string) :
  preserves h0 (get_prop v name).
Proof.
  destruct v as [p|l]; unfold get_prop.
  - destruct (nullish p); [apply preserves_throw_new | apply preserves_ret].
  - intros h h' r Hpre. destruct (h !! l) as [[]|]; intros [= <- <-]; exact Hpre.
Qed.

Lemma preserves_default_object (h0 : heap) (v : value) : preserves h0 (default_object v).
Proof. destruct v as [[]|]; first [apply preserves_alloc | apply preserves_ret]. Qed.

Lemma preserves_call (h0 : heap) (f : value) : preserves h0 (call f).
Proof.
  intros h h' r Hpre. unfold call. destruct f as [p|l].
  - apply preserves_throw_new. exact Hpre.
  - destruct (h !! l) as [[]|]; try (apply preserves_throw_new; exact Hpre).
    intros [= <- <-]. exact Hpre.
Qed.

Lemma preserves_bind_this (h0 : heap) (f thisArg : value) : preserves h0 (bind_this f thisArg).
Proof.
  intros h h' r Hpre. unfold bind_this. destruct f as [p|l].
  - apply preserves_throw_new. exact Hpre.
  - destruct (h !! l) as [[]|]; try (apply preserves_throw_new; exact Hpre).
    apply preserves_alloc. exact Hpre.
Qed.

Lemma preserves_as_response (h0 : heap) (response : value) : preserves h0 (as_response response).
Proof.
  intros h h' r Hpre. unfold as_response, throw_no_property. destruct response as [p|l].
  - destruct (nullish p); apply preserves_throw_new; exact Hpre.
  - destruct (h !! l) as [[]|]; try (apply preserves_throw_new; exact Hpre).
    intros [= <- <-]. exact Hpre.
Qed.

Lemma preserves_has_then (h0 : heap) (data : value) : preserves h0 (has_then data).
Proof.
  intros h h' r Hpre. unfold has_then, throw_no_property. destruct data as [p|l].
  - destruct (nullish p); [apply preserves_throw_new | apply preserves_ret]; exact Hpre.
  - destruct (h !! l) as [[]|]; intros [= <- <-]; exact Hpre.
Qed.

Lemma preserves_Promise_resolve (h0 : heap) (v : value) : preserves h0 (Promise_resolve v).
Proof.
  intros h h' r Hpre. unfold Promise_resolve. destruct v as [p|l].
  - apply preserves_alloc. exact Hpre.
  - destruct (h !! l) as [[]|]; try (apply preserves_alloc; exact Hpre).
    intros [= <- <-]. exact Hpre.
Qed.

Lemma preserves_call_then (h0 : heap) (data : value) (k : value -> M value) :
  (forall v, preserves h0 (k v)) -> preserves h0 (call_then data k).
Proof.
  intros Hk h h' r Hpre. unfold call_then, throw_no_property. destruct data as [p|l].
  - destruct (nullish p); apply preserves_throw_new; exact Hpre.
  - destruct (h !! l) as [o|] eqn:Hl; [|apply preserves_throw_new; exact Hpre].
    destruct o as [props|cls msg props|res|s|resp];
      try (apply preserves_call; exact Hpre).
    destruct s as [v|e|]; try (apply preserves_alloc; exact Hpre).
    destruct (k v h) as [[res|e] h1] eqn:Hrun; apply preserves_alloc;
      exact (Hk v _ _ _ Hpre Hrun).
Qed.

(** The frame of a sequence of statements. *)
Ltac preserves_steps :=
  repeat first
    [ apply preserves_throw_new
    | apply preserves_get_prop
    | apply preserves_default_object
    | apply preserves_call
    | apply preserves_bind_this
    | apply preserves_as_response
    | apply preserves_has_then
    | apply preserves_Promise_resolve
    | apply preserves_alloc
    | apply preserves_get_heap
    | apply preserves_ret
    | apply preserves_set_prop; assumption
    | apply preserves_alloc_bind; intros ? ?
    | apply preserves_call_then; intros ?
    | apply preserves_bind; [|intros ?] ].

Lemma preserves_mergeOptions (h0 : heap) (this options : value) :
  preserves h0 (mergeOptions this options).
Proof. unfold mergeOptions. preserves_steps. Qed.

Lemma preserves_new_Api (h0 : heap) (apiUrl options : value) :
  preserves h0 (new_Api apiUrl options).
Proof.
  unfold new_Api. preserves_steps. destruct (negb _); preserves_steps.
Qed.

Lemma preserves_auth (h0 : heap) (this : value) (token : prim) :
  preserves h0 (auth this token).
Proof.
  unfold auth.
  destruct token; try apply preserves_throw_new;
    (apply preserves_alloc_bind; intros l1 Hl1; apply preserves_alloc_bind; intros l2 Hl2;
     apply preserves_bind; [apply preserves_mergeOptions|]; intros merged;
     apply preserves_bind; [apply preserves_get_prop|]; intros apiUrl;
     apply preserves_new_Api).
Qed.

Lemma preserves_transformer (h0 : heap) (this response : value) :
  preserves h0 (transformer this response).
Proof. unfold transformer. preserves_steps. destruct (negb _); preserves_steps. Qed.

Lemma preserves_transform (h0 : heap) (this response : value) :
  preserves h0 (transform this response).
Proof.
  unfold transform. apply preserves_bind; [apply preserves_transformer|]. intros decode.
  apply preserves_bind; [apply preserves_call|]. intros data.
  apply preserves_bind; [apply preserves_as_response|]. intros r.
  destruct (negb (ok r)).
  - apply preserves_alloc_bind. intros error Herror.
    apply preserves_bind; [apply preserves_set_prop; exact Herror|]. intros _.
    apply preserves_bind; [apply preserves_has_then|]. intros [|].
    + apply preserves_call_then. intros body.
      apply preserves_bind; [apply preserves_set_prop; exact Herror|]. intros _.
      apply preserves_alloc.
    + apply preserves_bind; [apply preserves_set_prop; exact Herror|]. intros _.
      apply preserves_alloc.
  - apply preserves_bind; [apply preserves_has_then|]. intros [|].
    + apply preserves_call_then. intros body.
      apply preserves_alloc_bind. intros outcome _. apply preserves_Promise_resolve.
    + apply preserves_alloc_bind. intros outcome _. apply preserves_Promise_resolve.
Qed.

Section Frame.

Variable Url_resolve : string -> string -> string.
Variable queryString_stringify : heap -> value -> string.
Variable JSON_stringify_object : heap -> loc -> completion value.
Variable global_fetch : string -> value -> M value.

Lemma preserves_fetch_url (h0 : heap) (this : value) (url : string) (options : value) :
  preserves h0 (fetch_url queryString_stringify this url options).
Proof.
  unfold fetch_url. apply preserves_bind; [apply preserves_default_object|]. intros o.
  apply preserves_bind; [apply preserves_mergeOptions|]. intros merged.
  apply preserves_bind; [apply preserves_get_prop|]. intros query.
  destruct (truthy query); [|apply preserves_ret].
  apply preserves_bind; [apply preserves_get_heap|]. intros h. apply preserves_ret.
Qed.

Lemma preserves_buildFullUrl (h0 : heap) (this : value) (url : string) :
  preserves h0 (buildFullUrl Url_resolve this url).
Proof.
  unfold buildFullUrl. destruct (_ || _); [apply preserves_ret|].
  apply preserves_bind; [apply preserves_get_prop|]. intros root.
  destruct root as [[]|]; first [apply preserves_ret | apply preserves_throw_new].
Qed.

Hypothesis transport_frame : allocates_only global_fetch.

Lemma preserves_fetch (h0 : heap) (this : value) (url : string) (options : value) :
  preserves h0 (fetch Url_resolve queryString_stringify global_fetch this url options).
Proof.
  unfold fetch. apply preserves_bind; [apply preserves_fetch_url|]. intros request.
  apply preserves_bind; [apply preserves_buildFullUrl|]. intros fullUrl.
  apply preserves_bind; [apply preserves_grows; apply transport_frame|]. intros response.
  apply preserves_call_then. intros v. apply preserves_transform.
Qed.

Lemma preserves_fetchWithJSON (h0 : heap) (this : value) (url : string) (json options : value) :
  preserves h0 (fetchWithJSON Url_resolve queryString_stringify JSON_stringify_object
                  global_fetch this url json options).
Proof.
  assert (Hrest : preserves h0
    (h <- get_heap ;;
     headers <- alloc (OPlain (<["Content-Type" := VStr "application/json"]>
                               {[ "Accept" := VStr "application/json" ]})) ;;
     body <- JSON_stringify JSON_stringify_object json ;;
     request <- alloc (OPlain (<["body" := body]>
                               (<["headers" := headers]> (own_props h options)))) ;;
     fetch Url_resolve queryString_stringify global_fetch this url request)).
  { apply preserves_bind; [apply preserves_get_heap|]. intros h.
    apply preserves_alloc_bind. intros headers _.
    apply preserves_bind.
    - destruct json as [p|l]; [apply preserves_ret|].
      intros h1 h2 r Hpre. unfold JSON_stringify.
      destruct (h1 !! l) as [[]|]; intros [= <- <-]; exact Hpre.
    - intros body. apply preserves_alloc_bind. intros request _. apply preserves_fetch. }
  unfold fetchWithJSON. destruct json as [[]|]; first [exact Hrest | apply preserves_throw_new].
Qed.

Lemma preserves_with_method (h0 : heap) (options : value) (m : string) :
  preserves h0 (with_method options m).
Proof.
  unfold with_method. apply preserves_bind; [apply preserves_get_heap|]. intros h.
  apply preserves_alloc.
Qed.

End Frame.

(** X15: [transform] changes no object that exists when it is called,
    whatever it is given and however it ends: the response and every
    other object read afterwards as before. What it assigns, it assigns
    to the error it has just created. (The decoder it calls is a test
    double, which writes nothing.) *)
Theorem transform_keeps_heap (this response : value) (h h' : heap) (r : completion value) :
  transform this response h = (r, h') -> h `prefix_of` h'.
Proof. intros Hrun. exact (preserves_transform h this response h h' r (reflexivity h) Hrun). Qed.

Lemma transform_keeps_heap_witness :
  not_found_heap `prefix_of` snd (transform VUndefined (VRef 1) not_found_heap) /\
  json_heap `prefix_of` snd (transform VUndefined (VRef 2) json_heap) /\
  no_decoder_heap `prefix_of` snd (transform VUndefined (VRef 0) no_decoder_heap).
Proof.
  repeat split.
  - apply (transform_keeps_heap VUndefined (VRef 1) not_found_heap _
             (fst (transform VUndefined (VRef 1) not_found_heap))).
    vm_compute. reflexivity.
  - apply (transform_keeps_heap VUndefined (VRef 2) json_heap _
             (fst (transform VUndefined (VRef 2) json_heap))).
    vm_compute. reflexivity.
  - apply (transform_keeps_heap VUndefined (VRef 0) no_decoder_heap _
             (fst (transform VUndefined (VRef 0) no_decoder_heap))).
    vm_compute. reflexivity.
Defined.

(** X16: the constructor, [mergeOptions] and [auth] change no object
    that exists when they are called, on any arguments, also when they
    throw. *)
Theorem configuration_keeps_heap (h h' : heap) (r : completion value) :
  (forall apiUrl options, new_Api apiUrl options h = (r, h') -> h `prefix_of` h') /\
  (forall this options, mergeOptions this options h = (r, h') -> h `prefix_of` h') /\
  (forall this token, auth this token h = (r, h') -> h `prefix_of` h').
Proof.
  repeat split.
  - intros apiUrl options. apply preserves_new_Api. reflexivity.
  - intros this options. apply preserves_mergeOptions. reflexivity.
  - intros this token. apply preserves_auth. reflexivity.
Qed.

Lemma configuration_keeps_heap_witness :
  headers_test_heap `prefix_of` snd (auth (VRef 0) (PStr "abc") headers_test_heap).
Proof.
  apply (proj2 (proj2 (configuration_keeps_heap headers_test_heap
                         (snd (auth (VRef 0) (PStr "abc") headers_test_heap))
                         (fst (auth (VRef 0) (PStr "abc") headers_test_heap))))
               (VRef 0) (PStr "abc")).
  vm_compute. reflexivity.
Defined.

Section DispatchFrame.

Variable Url_resolve : string -> string -> string.
Variable queryString_stringify : heap -> value -> string.
Variable JSON_stringify_object : heap -> loc -> completion value.
Variable global_fetch : string -> value -> M value.

(** X17: with a transport that changes no existing object, no
    dispatch changes one: [fetch], [get], [post], [put],
    [fetchWithJSON], [postJSON] and [putJSON] leave every object that
    exists at the call as it is, so the client and the caller's options
    are never modified. *)
Theorem dispatch_keeps_heap (this : value) (url : string) (options : value)
        (h h' : heap) (r : completion value) :
  allocates_only global_fetch ->
  (fetch Url_resolve queryString_stringify global_fetch this url options h = (r, h') ->
   h `prefix_of` h') /\
  (get Url_resolve queryString_stringify global_fetch this url options h = (r, h') ->
   h `prefix_of` h') /\
  (post Url_resolve queryString_stringify global_fetch this url options h = (r, h') ->
   h `prefix_of` h') /\
  (put Url_resolve queryString_stringify global_fetch this url options h = (r, h') ->
   h `prefix_of` h') /\
  (forall json,
     fetchWithJSON Url_resolve queryString_stringify JSON_stringify_object global_fetch
       this url json options h = (r, h') -> h `prefix_of` h') /\
  (forall json,
     postJSON Url_resolve queryString_stringify JSON_stringify_object global_fetch
       this url json options h = (r, h') -> h `prefix_of` h') /\
  (forall json,
     putJSON Url_resolve queryString_stringify JSON_stringify_object global_fetch
       this url json options h = (r, h') -> h `prefix_of` h').
Proof.
  intros Htransport.
  assert (Hverb : forall m, preserves h
            (request <- with_method options m ;;
             fetch Url_resolve queryString_stringify global_fetch this url request)).
  { intros m. apply preserves_bind; [apply preserves_with_method|]. intros request.
    apply preserves_fetch. exact Htransport. }
  assert (Hjson : forall m json, preserves h
            (request <- with_method options m ;;
             fetchWithJSON Url_resolve queryString_stringify JSON_stringify_object
               global_fetch this url json request)).
  { intros m json. apply preserves_bind; [apply preserves_with_method|]. intros request.
    apply preserves_fetchWithJSON. exact Htransport. }
  repeat split.
  - apply preserves_fetch; [exact Htransport | reflexivity].
  - apply (Hverb "get"). reflexivity.
  - apply (Hverb "post"). reflexivity.
  - apply (Hverb "put"). reflexivity.
  - intros json. apply preserves_fetchWithJSON; [exact Htransport | reflexivity].
  - intros json. apply (Hjson "post"). reflexivity.
  - intros json. apply (Hjson "put"). reflexivity.
Qed.

End DispatchFrame.

Lemma stub_transport_allocates_only (r : Response) : allocates_only (stub_transport r).
Proof.
  intros url options h h' res [= <- <-]. rewrite <- app_assoc. apply prefix_app_r. reflexivity.
Qed.

Lemma dispatch_keeps_heap_witness :
  sample_heap `prefix_of`
    snd (postJSON String.append stub_stringify stub_encode
           (stub_transport (test_response false 404 "Not Found"))
           (VRef 0) "/sample" (VStr "x") VUndefined sample_heap).
Proof.
  destruct (dispatch_keeps_heap String.append stub_stringify stub_encode
              (stub_transport (test_response false 404 "Not Found"))
              (VRef 0) "/sample" VUndefined sample_heap
              (snd (postJSON String.append stub_stringify stub_encode
                      (stub_transport (test_response false 404 "Not Found"))
                      (VRef 0) "/sample" (VStr "x") VUndefined sample_heap))
              (fst (postJSON String.append stub_stringify stub_encode
                      (stub_transport (test_response false 404 "Not Found"))
                      (VRef 0) "/sample" (VStr "x") VUndefined sample_heap))
              (stub_transport_allocates_only _))
    as (_ & _ & _ & _ & _ & Hpost & _).
  apply (Hpost (VStr "x")). vm_compute. reflexivity.
Defined.

(** ** The repository's tests on the embedding *)

Example test_select_json :
  fst ((decode <- transformer VUndefined (VRef 3) ;; call decode)
         (typed_response_heap "application/json")) = Normal (VStr "jsonSymbol").
Proof. vm_compute. reflexivity. Qed.

Example test_select_text :
  fst ((decode <- transformer VUndefined (VRef 3) ;; call decode)
         (typed_response_heap "text/xml")) = Normal (VStr "textSymbol").
Proof. vm_compute. reflexivity. Qed.

Example test_select_raw :
  fst ((decode <- transformer VUndefined (VRef 3) ;; call decode)
         (typed_response_heap "something-unknown")) = Normal (VStr "rawSymbol").
Proof. vm_compute. reflexivity. Qed.

Example test_transform_resolves :
  transform VUndefined (VRef 1) found_heap =
    (Normal (VRef 4),
     found_heap ++ [ OFunction (Normal (VStr "data"));
                     OPlain (outcome_props (VRef 1) (VStr "data"));
                     OPromise (Fulfilled (VRef 3)) ]).
Proof. vm_compute. reflexivity. Qed.

Example test_transform_rejects :
  transform VUndefined (VRef 1) not_found_heap =
    (Normal (VRef 4),
     not_found_heap ++ [ OFunction (Normal (VStr "data"));
                         OError "ApiError" "Response has no ok-status (404 - Not Found)"
                                (outcome_props (VRef 1) (VStr "data"));
                         OPromise (Rejected (VRef 3)) ]) /\
  contains "ok-status" "Response has no ok-status (404 - Not Found)" = true.
Proof. split; vm_compute; reflexivity. Qed.

Example test_keep_absolute (resolve : string -> string -> string) :
  buildFullUrl resolve (VRef 0) "http://foo.bar/baz" sample_heap =
    (Normal "http://foo.bar/baz", sample_heap) /\
  buildFullUrl resolve (VRef 0) "www.example.com" sample_heap =
    (Normal "www.example.com", sample_heap).
Proof. split; reflexivity. Qed.

Example test_resolve_relative (resolve : string -> string -> string) :
  buildFullUrl resolve (VRef 0) "/path" sample_heap =
    (Normal (resolve "http://example.com" "/path"), sample_heap).
Proof. vm_compute. reflexivity. Qed.

(** The merged object also has the key [query], which the test "should
    merge fetch options" does not expect. *)
Example test_merge_options :
  mergeOptions (VRef 0) (VRef 2) options_test_heap =
    (Normal (VRef 5),
     options_test_heap ++
       [ OPlain ∅; OPlain ∅;
         OPlain (<["method" := VStr "get"]>
                 (<["auth" := VNum 321]>
                  (<["foo" := VStr "bar"]>
                   (<["headers" := VRef 3]> {[ "query" := VRef 4 ]})))) ]).
Proof. vm_compute. reflexivity. Qed.

Example test_no_json (resolve : string -> string -> string)
        (stringify : heap -> value -> string) (encode : heap -> loc -> completion value)
        (transport : string -> value -> M value) :
  fetchWithJSON resolve stringify encode transport (VRef 0) "/" VUndefined VUndefined
    sample_heap =
    (Throw (VRef 2), sample_heap ++ [OError "ApiError" "No JSON object given" ∅]).
Proof. reflexivity. Qed.
